(** * LLM context optimizer: a shallow embedding of [optimize.py]

    The development follows the Python module function by function:
    [estimate_tokens], [calculate_priority], [semantic_hash],
    [deduplicate_messages], [summarize_messages] and [optimize_context].

    Modelling conventions.
    - A Python [str] is a [string]; a character is a code point in the range
      U+0000..U+00FF (the 256 values of [ascii]).  The character classes
      ([str.isspace], [str.lower], the regex classes [\w] and [\d]) are
      Python's on that range.
    - A Python [int] is a [Z].
    - A Python [float] is a [Q].  Every finite double is a rational and the
      only arithmetic the module does on floats adds multiples of 0.5 to
      5.0, which is exact in binary floating point; comparisons of finite
      doubles agree with the comparisons of their values.  NaN and the
      infinities are outside the model.
    - A function that can raise returns an [option]. *)

From Stdlib Require Import Bool Arith NArith ZArith QArith Lia Lqa List.
From Stdlib Require Import Ascii String.
From Stdlib Require Import Permutation Sorted.
From Stdlib Require OrderedTypeEx.
Import ListNotations.

Local Open Scope string_scope.
Local Open Scope list_scope.

(** ** Python string primitives *)

Module Py.

Definition code (c : ascii) : N := N_of_ascii c.

Definition in_range (lo hi : N) (c : ascii) : bool :=
  (lo <=? code c)%N && (code c <=? hi)%N.

(** [str.isspace] on one character. *)
Definition isspace (c : ascii) : bool :=
  in_range 9 13 c || in_range 28 32 c
  || (code c =? 133)%N || (code c =? 160)%N.

(** The regex class [\d] ([str] patterns match Unicode decimal digits;
    below U+0100 these are 0-9). *)
Definition isdigit (c : ascii) : bool := in_range 48 57 c.

(** The regex class [\w]: alphanumeric characters and the underscore. *)
Definition isword (c : ascii) : bool :=
  in_range 48 57 c || in_range 65 90 c || (code c =? 95)%N
  || in_range 97 122 c
  || (code c =? 170)%N || in_range 178 179 c || (code c =? 181)%N
  || in_range 185 186 c || in_range 188 190 c
  || in_range 192 214 c || in_range 216 246 c || in_range 248 255 c.

Definition lower_char (c : ascii) : ascii :=
  if in_range 65 90 c || in_range 192 214 c || in_range 216 222 c
  then ascii_of_N (code c + 32) else c.

(** [s.lower()] *)
Fixpoint lower (s : string) : string :=
  match s with
  | EmptyString => EmptyString
  | String c t => String (lower_char c) (lower t)
  end.

(** [len(s)] *)
Definition len (s : string) : Z := Z.of_nat (String.length s).

(** [needle in hay] *)
Fixpoint contains (needle hay : string) : bool :=
  String.prefix needle hay
  || match hay with
     | EmptyString => false
     | String _ t => contains needle t
     end.

(** [any(word in content for word in words)] *)
Definition any_in (words : list string) (content : string) : bool :=
  existsb (fun word => contains word content) words.

(** [s in l] for a list of strings. *)
Definition mem (s : string) (l : list string) : bool :=
  existsb (String.eqb s) l.

Fixpoint lstrip (s : string) : string :=
  match s with
  | EmptyString => EmptyString
  | String c t => if isspace c then lstrip t else s
  end.

Fixpoint rstrip (s : string) : string :=
  match s with
  | EmptyString => EmptyString
  | String c t =>
      match rstrip t with
      | EmptyString => if isspace c then EmptyString else String c EmptyString
      | t' => String c t'
      end
  end.

(** [s.strip()] *)
Definition strip (s : string) : string := rstrip (lstrip s).

Definition flush (cur : string) : list string :=
  match cur with EmptyString => [] | _ => [cur] end.

(** The maximal runs of characters satisfying [keep], left to right;
    [cur] is the run being read. *)
Fixpoint runs (keep : ascii -> bool) (s cur : string) : list string :=
  match s with
  | EmptyString => flush cur
  | String c t =>
      if keep c then runs keep t (cur ++ String c EmptyString)%string
      else flush cur ++ runs keep t EmptyString
  end.

(** [s.split()] *)
Definition split (s : string) : list string :=
  runs (fun c => negb (isspace c)) s EmptyString.

(** [re.findall(r'\w+', s)] *)
Definition findall_words (s : string) : list string :=
  runs isword s EmptyString.

Fixpoint endswith (suffix s : string) : bool :=
  String.eqb suffix s
  || match s with
     | EmptyString => false
     | String _ t => endswith suffix t
     end.

(** [re.search(r'\?$', s)]: [$] matches at the end of the string and just
    before a newline that ends the string. *)
Definition search_qmark_end (s : string) : bool :=
  endswith "?" s || endswith (String "?" (String (ascii_of_N 10) EmptyString)) s.

Fixpoint exists_char (p : ascii -> bool) (s : string) : bool :=
  match s with
  | EmptyString => false
  | String c t => p c || exists_char p t
  end.

(** [re.search(r'\d+', s)] *)
Definition search_digits (s : string) : bool := exists_char isdigit s.

(** [s.count(c)] for a one-character [c]. *)
Fixpoint count_char (c : ascii) (s : string) : Z :=
  match s with
  | EmptyString => 0
  | String d t => ((if Ascii.eqb c d then 1 else 0) + count_char c t)%Z
  end.

(** [sep.join(l)] *)
Fixpoint join (sep : string) (l : list string) : string :=
  match l with
  | [] => EmptyString
  | [s] => s
  | s :: rest => (s ++ sep ++ join sep rest)%string
  end.

(** [s.encode()]: UTF-8. *)
Fixpoint encode (s : string) : list N :=
  match s with
  | EmptyString => []
  | String c t =>
      (if (code c <? 128)%N then [code c]
       else [N.lor 192 (N.shiftr (code c) 6); N.lor 128 (N.land (code c) 63)])
      ++ encode t
  end.

(** [l[-n:]] for [n > 0]. *)
Definition last_n {A} (n : Z) (l : list A) : list A :=
  skipn (Z.to_nat (Z.of_nat (List.length l) - n)) l.

(** [l[:-n]] for [n > 0]. *)
Definition drop_last_n {A} (n : Z) (l : list A) : list A :=
  firstn (Z.to_nat (Z.of_nat (List.length l) - n)) l.

End Py.

(** ** [hashlib.md5] (RFC 1321), on bytes given as numbers below 256 *)

Module MD5.
Local Open Scope N_scope.

Definition mask32 : N := 0xffffffff.
Definition add32 (a b : N) : N := N.land (a + b) mask32.
Definition not32 (a : N) : N := N.lxor a mask32.
Definition rotl32 (x c : N) : N :=
  N.land (N.lor (N.shiftl x c) (N.shiftr x (32 - c))) mask32.

Definition shifts : list N :=
  [7; 12; 17; 22; 7; 12; 17; 22; 7; 12; 17; 22; 7; 12; 17; 22;
   5; 9; 14; 20; 5; 9; 14; 20; 5; 9; 14; 20; 5; 9; 14; 20;
   4; 11; 16; 23; 4; 11; 16; 23; 4; 11; 16; 23; 4; 11; 16; 23;
   6; 10; 15; 21; 6; 10; 15; 21; 6; 10; 15; 21; 6; 10; 15; 21].

(** [K i = floor (2^32 * abs (sin (i + 1)))] *)
Definition K : list N :=
  [0xd76aa478; 0xe8c7b756; 0x242070db; 0xc1bdceee;
   0xf57c0faf; 0x4787c62a; 0xa8304613; 0xfd469501;
   0x698098d8; 0x8b44f7af; 0xffff5bb1; 0x895cd7be;
   0x6b901122; 0xfd987193; 0xa679438e; 0x49b40821;
   0xf61e2562; 0xc040b340; 0x265e5a51; 0xe9b6c7aa;
   0xd62f105d; 0x02441453; 0xd8a1e681; 0xe7d3fbc8;
   0x21e1cde6; 0xc33707d6; 0xf4d50d87; 0x455a14ed;
   0xa9e3e905; 0xfcefa3f8; 0x676f02d9; 0x8d2a4c8a;
   0xfffa3942; 0x8771f681; 0x6d9d6122; 0xfde5380c;
   0xa4beea44; 0x4bdecfa9; 0xf6bb4b60; 0xbebfbc70;
   0x289b7ec6; 0xeaa127fa; 0xd4ef3085; 0x04881d05;
   0xd9d4d039; 0xe6db99e5; 0x1fa27cf8; 0xc4ac5665;
   0xf4292244; 0x432aff97; 0xab9423a7; 0xfc93a039;
   0x655b59c3; 0x8f0ccc92; 0xffeff47d; 0x85845dd1;
   0x6fa87e4f; 0xfe2ce6e0; 0xa3014314; 0x4e0811a1;
   0xf7537e82; 0xbd3af235; 0x2ad7d2bb; 0xeb86d391].

Definition get (l : list N) (i : N) : N := nth (N.to_nat i) l 0.

Record state := mkState { sa : N; sb : N; sc : N; sd : N }.

Definition init : state :=
  mkState 0x67452301 0xefcdab89 0x98badcfe 0x10325476.

(** Operation [i] (0..63) of the compression function on block [M]
    (sixteen 32-bit words). *)
Definition step (M : list N) (st : state) (i : N) : state :=
  let '(mkState a b c d) := st in
  let '(f, g) :=
    if i <? 16 then (N.lor (N.land b c) (N.land (not32 b) d), i)
    else if i <? 32
      then (N.lor (N.land d b) (N.land (not32 d) c), (5 * i + 1) mod 16)
    else if i <? 48 then (N.lxor b (N.lxor c d), (3 * i + 5) mod 16)
    else (N.lxor c (N.lor b (not32 d)), (7 * i) mod 16) in
  let f := add32 (add32 (add32 f a) (get K i)) (get M g) in
  mkState d (add32 b (rotl32 f (get shifts i))) b c.

Definition indices : list N := map N.of_nat (seq 0 64).

Definition compress (st : state) (M : list N) : state :=
  let st' := fold_left (step M) indices st in
  mkState (add32 (sa st) (sa st')) (add32 (sb st) (sb st'))
          (add32 (sc st) (sc st')) (add32 (sd st) (sd st')).

(** Little-endian bytes of a number, [n] of them. *)
Fixpoint le_bytes (n : nat) (x : N) : list N :=
  match n with
  | O => []
  | S n' => N.land x 255 :: le_bytes n' (N.shiftr x 8)
  end.

Fixpoint le_word (bytes : list N) : N :=
  match bytes with
  | [] => 0
  | b :: rest => b + 256 * le_word rest
  end.

Fixpoint words (n : nat) (bytes : list N) : list N :=
  match n with
  | O => []
  | S n' => le_word (firstn 4 bytes) :: words n' (skipn 4 bytes)
  end.

Definition pad (msg : list N) : list N :=
  let n := N.of_nat (List.length msg) in
  let zeros := (119 - n mod 64) mod 64 in
  msg ++ [128] ++ repeat 0 (N.to_nat zeros) ++ le_bytes 8 (N.land (8 * n) 0xffffffffffffffff).

Fixpoint blocks (n : nat) (bytes : list N) (st : state) : state :=
  match n with
  | O => st
  | S n' => blocks n' (skipn 64 bytes) (compress st (words 16 (firstn 64 bytes)))
  end.

Definition digest (msg : list N) : list N :=
  let p := pad msg in
  let st := blocks (List.length p / 64) p init in
  le_bytes 4 (sa st) ++ le_bytes 4 (sb st) ++ le_bytes 4 (sc st) ++ le_bytes 4 (sd st).

Definition hex_digit (n : N) : ascii :=
  if n <? 10 then ascii_of_N (48 + n) else ascii_of_N (87 + n).

Fixpoint hex (bytes : list N) : string :=
  match bytes with
  | [] => EmptyString
  | b :: rest => String (hex_digit (b / 16)) (String (hex_digit (b mod 16)) (hex rest))
  end.

(** [hashlib.md5(msg).hexdigest()] *)
Definition hexdigest (msg : list N) : string := hex (digest msg).

End MD5.

(** ** The data model *)

(** The values a [metadata] dictionary can hold ([Dict[str, Any]] read from
    JSON). *)
Unset Elimination Schemes.
Inductive pyvalue : Type :=
| PyNone
| PyBool (b : bool)
| PyInt (z : Z)
| PyFloat (q : Q)
| PyStr (s : string)
| PyList (l : list pyvalue)
| PyDict (d : list (string * pyvalue)).
Set Elimination Schemes.

(** The dataclass [Message]. *)
Record Message : Type := mkMessage {
  role : string;
  content : string;
  timestamp : option string;
  metadata : option (list (string * pyvalue));
  priority : Q;
  tokens : Z
}.

Definition with_tokens (msg : Message) (t : Z) : Message :=
  mkMessage (role msg) (content msg) (timestamp msg) (metadata msg) (priority msg) t.

(** [msg.priority = p] *)
Definition with_priority (msg : Message) (p : Q) : Message :=
  mkMessage (role msg) (content msg) (timestamp msg) (metadata msg) p (tokens msg).

(** [x < y] on floats. *)
Definition Qlt_bool (x y : Q) : bool := negb (Qle_bool y x).

(** [max(a, b)] and [min(a, b)] on two arguments: the first one wins a tie. *)
Definition py_max (a b : Q) : Q := if Qlt_bool a b then b else a.
Definition py_min (a b : Q) : Q := if Qlt_bool b a then b else a.

(** ** Token estimation *)

Definition estimate_tokens (text : string) : Z :=
  (Py.len text / 4 + Z.of_nat (List.length (Py.split text)) / 2)%Z.

(** [Message.__post_init__] *)
Definition post_init (self : Message) : Message :=
  if (tokens self =? 0)%Z then with_tokens self (estimate_tokens (content self))
  else self.

(** The constructor call [Message(role, content, timestamp, metadata,
    priority, tokens)]: the generated [__init__] followed by
    [__post_init__].  An argument that the caller leaves out has its default
    ([None], [None], [5.0], [0]). *)
Definition Message_new (role content : string) (timestamp : option string)
    (metadata : option (list (string * pyvalue))) (priority : Q) (tokens : Z)
    : Message :=
  post_init (mkMessage role content timestamp metadata priority tokens).

(** ** Priority scoring *)

Definition importance_words : list string :=
  ["decide"; "important"; "remember"; "prefer"; "always"; "never"].
Definition data_words : list string := ["data"; "fact"; "result"; "conclusion"].
Definition problem_words : list string := ["error"; "bug"; "fix"; "issue"; "problem"].
Definition greeting_words : list string := ["hello"; "hi "; "bye"; "thanks"; "thank you"].
Definition acknowledgments : list string :=
  ["ok"; "okay"; "yes"; "no"; "sure"; "got it"; "understood"].

(** [calculate_priority] is cut at three program points; each definition is
    the value of the local [priority] there. *)

(** [priority] after the greeting rule (source lines 51-68). *)
Definition priority_before_ack (msg : Message) : Q :=
  let text := content msg in
  let content := Py.lower text in
  let priority := 5.0 in
  let priority := if Py.any_in importance_words content then priority + 2.0 else priority in
  let priority := if Py.search_qmark_end (Py.strip text)
                  then priority + 1.5 else priority in
  let priority := if Py.any_in data_words content then priority + 1.5 else priority in
  let priority := if Py.any_in problem_words content then priority + 1.0 else priority in
  let priority := if Py.search_digits content then priority + 0.5 else priority in
  let priority := if Py.any_in greeting_words content then priority - 2.0 else priority in
  priority.

(** The test of the short-acknowledgment rule (line 69). *)
Definition is_acknowledgment (msg : Message) : bool :=
  let content := Py.lower (content msg) in
  Py.mem content acknowledgments.

(** [priority] after the short-acknowledgment rule (lines 69-70). *)
Definition priority_after_ack (msg : Message) : Q :=
  let priority := priority_before_ack msg in
  if is_acknowledgment msg then priority - 2.5 else priority.

(** [priority] before the clamp (lines 71-78). *)
Definition priority_unclamped (msg : Message) : Q :=
  let content := Py.lower (content msg) in
  let priority := priority_after_ack msg in
  let priority := if (Py.len content <? 20)%Z then priority - 1.0 else priority in
  let priority := if (2 <? Py.count_char "!" content)%Z then priority - 0.5 else priority in
  let priority := if String.eqb (role msg) "system" then priority + 1.0 else priority in
  priority.

Definition calculate_priority (msg : Message) : Q :=
  py_max 1.0 (py_min 10.0 (priority_unclamped msg)).

(** ** Semantic fingerprint *)

Fixpoint insert_string (s : string) (l : list string) : list string :=
  match l with
  | [] => [s]
  | x :: rest => if String.leb s x then s :: l else x :: insert_string s rest
  end.

(** [x <= y] on strings: the order [sorted] uses. *)
Definition string_le (x y : string) : Prop := String.leb x y = true.

(** [sorted(l)] on strings (code-point order). *)
Fixpoint sorted (l : list string) : list string :=
  match l with
  | [] => []
  | s :: rest => insert_string s (sorted rest)
  end.

(** [set(l)], as an enumeration of its elements.  The order in which Python
    enumerates a set is unspecified; [semantic_hash] sorts the enumeration,
    and [sorted_set_unique] below shows that the outcome is the same for
    every enumeration. *)
Definition py_set (l : list string) : list string := nodup string_dec l.

(** The canonical string that is hashed. *)
Definition normalized (text : string) : string :=
  let words := Py.findall_words (Py.lower text) in
  Py.join " " (sorted (py_set words)).

Definition semantic_hash (text : string) : string :=
  String.substring 0 16 (MD5.hexdigest (Py.encode (normalized text))).

(** ** Deduplication *)

(** [hash_groups]: a dictionary keeps its keys in insertion order, so it is
    an association list with new keys added at the end. *)
Definition hash_groups := list (string * list Message).

(** [hash_groups[shash].append(msg)] on a [defaultdict(list)]. *)
Fixpoint group_append (shash : string) (msg : Message) (groups : hash_groups)
    : hash_groups :=
  match groups with
  | [] => [(shash, [msg])]
  | (k, group) :: rest =>
      if String.eqb shash k then (k, group ++ [msg]) :: rest
      else (k, group) :: group_append shash msg rest
  end.

(** The first loop of [deduplicate_messages]. *)
Definition build_groups (messages : list Message) : hash_groups :=
  fold_left (fun groups msg => group_append (semantic_hash (content msg)) msg groups)
            messages [].

(** The scan of [max(group, key=lambda m: m.priority)] after its first
    element: a later element replaces [best] only when its key is strictly
    greater. *)
Fixpoint max_from (best : Message) (group : list Message) : Message :=
  match group with
  | [] => best
  | m :: rest =>
      if Qlt_bool (priority best) (priority m) then max_from m rest
      else max_from best rest
  end.

(** [max(group, key=lambda m: m.priority)]; [None] is the [ValueError] of an
    empty argument. *)
Definition max_priority (group : list Message) : option Message :=
  match group with
  | [] => None
  | m :: rest => Some (max_from m rest)
  end.

(** The second loop of [deduplicate_messages]. *)
Fixpoint best_of_groups (groups : list (list Message)) : option (list Message) :=
  match groups with
  | [] => Some []
  | group :: rest =>
      match max_priority group with
      | None => None
      | Some best =>
          match best_of_groups rest with
          | None => None
          | Some unique => Some (best :: unique)
          end
      end
  end.

Definition deduplicate_messages (messages : list Message) (threshold : Q)
    : option (list Message) :=
  best_of_groups (map snd (build_groups messages)).

(** The key under which [deduplicate_messages] files a message. *)
Definition fingerprint (msg : Message) : string := semantic_hash (content msg).

(** The messages of a list that have fingerprint [k], in order. *)
Definition group_of (k : string) (messages : list Message) : list Message :=
  filter (fun msg => String.eqb (fingerprint msg) k) messages.

(** The distinct elements of a list, each at the place of its first
    appearance: an element is kept and its later copies are removed. *)
Fixpoint first_appearances (l : list string) : list string :=
  match l with
  | [] => []
  | k :: rest =>
      k :: filter (fun k' => negb (String.eqb k' k)) (first_appearances rest)
  end.

(** ** Summaries *)

Definition decision_words : list string := ["decide"; "will"; "going to"].
Definition fact_words : list string := ["fact"; "data"; "result"].

(** The three lists filled by the loop of [summarize_messages]. *)
Record buckets : Type := mkBuckets {
  decisions : list string;
  facts : list string;
  questions : list string
}.

Definition classify (b : buckets) (msg : Message) : buckets :=
  let content := content msg in
  if Py.any_in decision_words (Py.lower content)
  then mkBuckets (decisions b ++ [content]) (facts b) (questions b)
  else if Py.contains "?" content
  then mkBuckets (decisions b) (facts b) (questions b ++ [content])
  else if Py.any_in fact_words (Py.lower content)
  then mkBuckets (decisions b) (facts b ++ [content]) (questions b)
  else b.

Definition summary_text (messages : list Message) : string :=
  let b := fold_left classify messages (mkBuckets [] [] []) in
  let summary_parts := [] in
  let summary_parts :=
    match decisions b with
    | [] => summary_parts
    | _ => summary_parts ++ [("**Decisions:** " ++ Py.join "; " (firstn 3 (decisions b)))%string]
    end in
  let summary_parts :=
    match facts b with
    | [] => summary_parts
    | _ => summary_parts ++ [("**Key facts:** " ++ Py.join "; " (firstn 3 (facts b)))%string]
    end in
  let summary_parts :=
    match questions b with
    | [] => summary_parts
    | _ => summary_parts ++ [("**Questions:** " ++ Py.join "; " (firstn 2 (questions b)))%string]
    end in
  match summary_parts with
  | [] => "General conversation summary."
  | _ => Py.join (String (ascii_of_N 10) EmptyString) summary_parts
  end.

Definition summarize_messages (messages : list Message) (max_summary_tokens : Z)
    : Message :=
  Message_new "system" ("[SUMMARY] " ++ summary_text messages)%string None
    (Some [("type", PyStr "summary");
           ("source_count", PyInt (Z.of_nat (List.length messages)))])
    8.0 0.

(** ** The pipeline: [optimize_context] *)

(** [for msg in messages: msg.priority = calculate_priority(msg)].  The loop
    overwrites the field in the caller's objects; every later use of
    [messages], [recent] and [old] sees the rescored objects, so the list is
    rebound to them. *)
Definition score_all (messages : list Message) : list Message :=
  map (fun msg => with_priority msg (calculate_priority msg)) messages.

(** [messages[-preserve_recent:] if preserve_recent > 0 else []] *)
Definition recent_tier (messages : list Message) (preserve_recent : Z)
    : list Message :=
  if (0 <? preserve_recent)%Z then Py.last_n preserve_recent messages else [].

(** [messages[:-preserve_recent] if preserve_recent > 0 else messages] *)
Definition old_tier (messages : list Message) (preserve_recent : Z)
    : list Message :=
  if (0 <? preserve_recent)%Z then Py.drop_last_n preserve_recent messages
  else messages.

Fixpoint insert_by_priority (msg : Message) (l : list Message) : list Message :=
  match l with
  | [] => [msg]
  | x :: rest =>
      if Qlt_bool (priority msg) (priority x) then x :: insert_by_priority msg rest
      else msg :: l
  end.

(** [l.sort(key=lambda m: m.priority, reverse=True)]: the stable sort by
    descending priority.  An element is put after the elements of greater
    priority that follow it and before the others, so equal priorities keep
    their order. *)
Fixpoint sort_by_priority (l : list Message) : list Message :=
  match l with
  | [] => []
  | msg :: rest => insert_by_priority msg (sort_by_priority rest)
  end.

(** [old_filtered] after the sort (lines 178-184). *)
Definition rank_old (old : list Message) (min_priority : Q)
    : option (list Message) :=
  match deduplicate_messages old 0.8 with
  | None => None
  | Some old_unique =>
      let old_filtered :=
        filter (fun msg => Qle_bool min_priority (priority msg)) old_unique in
      Some (sort_by_priority old_filtered)
  end.

(** [sum(msg.tokens for msg in l)] *)
Definition sum_tokens (l : list Message) : Z :=
  fold_left (fun acc msg => (acc + tokens msg)%Z) l 0%Z.

(** The loop of lines 190-195 over the rest [l] of [old_filtered], from the
    state [(optimized_old, current_tokens)]; the [else] branch is the
    [break]. *)
Fixpoint greedy_loop (l : list Message) (target_tokens : Z)
    (optimized_old : list Message) (current_tokens : Z) : list Message * Z :=
  match l with
  | [] => (optimized_old, current_tokens)
  | msg :: rest =>
      if (current_tokens + tokens msg <=? target_tokens)%Z
      then greedy_loop rest target_tokens (optimized_old ++ [msg])
                       (current_tokens + tokens msg)%Z
      else (optimized_old, current_tokens)
  end.

(** [bool(l)] for a list. *)
Definition nonempty {A} (l : list A) : bool :=
  match l with [] => false | _ => true end.

(** Lines 198-201: the value of [optimized_old] after the fallback. *)
Definition fallback (old old_filtered optimized_old : list Message)
    (current_tokens target_tokens : Z) : list Message :=
  if nonempty old
     && (Z.of_nat (List.length optimized_old)
         <? Z.of_nat (List.length old_filtered) / 2)%Z
  then
    let summary := summarize_messages (firstn 20 old_filtered) 500 in
    if (current_tokens + tokens summary <=? target_tokens)%Z
    then summary :: firstn 10 optimized_old
    else optimized_old
  else optimized_old.

Definition optimize_context (messages : list Message) (target_tokens : Z)
    (preserve_recent : Z) (min_priority : Q) : option (list Message) :=
  match messages with
  | [] => Some []
  | _ =>
      let messages := score_all messages in
      let recent := recent_tier messages preserve_recent in
      let old := old_tier messages preserve_recent in
      match rank_old old min_priority with
      | None => None
      | Some old_filtered =>
          let current_tokens := sum_tokens recent in
          let '(optimized_old, current_tokens) :=
            greedy_loop old_filtered target_tokens [] current_tokens in
          let optimized_old :=
            fallback old old_filtered optimized_old current_tokens target_tokens in
          let result := optimized_old ++ recent in
          Some result
      end
  end.

(** ** Statistics: [analyze_conversation] *)

(** [role_dist[role] += 1] on a [defaultdict(int)]. *)
Fixpoint role_incr (r : string) (role_dist : list (string * Z))
    : list (string * Z) :=
  match role_dist with
  | [] => [(r, 1%Z)]
  | (k, n) :: rest =>
      if String.eqb r k then (k, (n + 1)%Z) :: rest
      else (k, n) :: role_incr r rest
  end.

(** The dictionary [analyze_conversation] returns, a field per key.
    [priority_avg] is the exact quotient; the float the code computes is
    that value rounded to the nearest double. *)
Record Stats : Type := mkStats {
  total_messages : Z;
  total_tokens : Z;
  avg_tokens_per_message : Z;
  priority_avg : Q;
  priority_high_count : Z;
  priority_low_count : Z;
  role_distribution : list (string * Z);
  unique_semantic_groups : Z
}.

(** [sum(priorities)] *)
Definition sum_Q (l : list Q) : Q := fold_left Qplus l 0.

Definition analyze_conversation (messages : list Message) : Stats :=
  let total_tokens := sum_tokens messages in
  let priorities := map calculate_priority messages in
  let role_dist :=
    fold_left (fun role_dist msg => role_incr (role msg) role_dist) messages [] in
  mkStats
    (Z.of_nat (List.length messages))
    total_tokens
    (if nonempty messages
     then (total_tokens / Z.of_nat (List.length messages))%Z else 0%Z)
    (if nonempty priorities
     then sum_Q priorities / inject_Z (Z.of_nat (List.length priorities)) else 0)
    (Z.of_nat (List.length (filter (fun p => Qle_bool 7.0 p) priorities)))
    (Z.of_nat (List.length (filter (fun p => Qlt_bool p 4.0) priorities)))
    role_dist
    (Z.of_nat (List.length
       (py_set (map (fun msg => semantic_hash (content msg)) messages)))).

(** ** Fact extraction: [extract_facts] *)

(** One dictionary of the list [extract_facts] returns. *)
Record Fact : Type := mkFact {
  fact_content : string;
  fact_role : string;
  fact_priority : Q;
  fact_timestamp : option string;
  fact_position : Z
}.

(** The loop over [enumerate(messages)], from index [i]. *)
Fixpoint extract_from (i : Z) (messages : list Message) : list Fact :=
  match messages with
  | [] => []
  | msg :: rest =>
      let priority := calculate_priority msg in
      (if Qle_bool 7.0 priority
       then [mkFact (content msg) (role msg) priority (timestamp msg) i]
       else [])
      ++ extract_from (i + 1)%Z rest
  end.

Definition extract_facts (messages : list Message) : list Fact :=
  extract_from 0%Z messages.

(** The test of the three branches of the loop of [summarize_messages]: the
    message goes into one of the lists. *)
Definition summarizable (msg : Message) : bool :=
  Py.any_in decision_words (Py.lower (content msg))
  || Py.contains "?" (content msg)
  || Py.any_in fact_words (Py.lower (content msg)).

(** The number of contents filed in the three lists. *)
Definition bucket_size (b : buckets) : nat :=
  (List.length (decisions b) + List.length (facts b) + List.length (questions b))%nat.

(** The number of messages of a list that have role [r]. *)
Definition role_count (r : string) (messages : list Message) : Z :=
  Z.of_nat (List.length (filter (fun msg => String.eqb (role msg) r) messages)).

(** * Properties *)

(** ** The digest on known inputs *)

Example md5_empty : MD5.hexdigest [] = "d41d8cd98f00b204e9800998ecf8427e".
Proof. vm_compute. reflexivity. Qed.

Example md5_abc :
  MD5.hexdigest (Py.encode "abc") = "900150983cd24fb0d6963f7d28e17f72".
Proof. vm_compute. reflexivity. Qed.

(** Eighty bytes: two blocks. *)
Example md5_two_blocks :
  MD5.hexdigest (Py.encode
    "12345678901234567890123456789012345678901234567890123456789012345678901234567890")
  = "57edf4a22be3c955ac49da2e2107b67a".
Proof. vm_compute. reflexivity. Qed.

Example semantic_hash_a_b : semantic_hash "a b a" = "0cc9cd4dd26c5137".
Proof. vm_compute. reflexivity. Qed.

(** ** Comparisons on priorities *)

Lemma Qlt_bool_true (x y : Q) : Qlt_bool x y = true <-> x < y.
Proof.
  unfold Qlt_bool. rewrite negb_true_iff. split.
  - intros H. apply Qnot_le_lt. intros Hle.
    apply Qle_bool_iff in Hle. congruence.
  - intros H. destruct (Qle_bool y x) eqn:E; [|reflexivity].
    apply Qle_bool_iff in E. exfalso. exact (Qlt_not_le _ _ H E).
Qed.

Lemma Qlt_bool_false (x y : Q) : Qlt_bool x y = false <-> y <= x.
Proof.
  unfold Qlt_bool. rewrite negb_false_iff. apply Qle_bool_iff.
Qed.

(** ** Token estimation and message construction *)

Lemma len_nonneg (s : string) : (0 <= Py.len s)%Z.
Proof. unfold Py.len. lia. Qed.

Lemma estimate_tokens_nonneg (text : string) : (0 <= estimate_tokens text)%Z.
Proof.
  unfold estimate_tokens. pose proof (len_nonneg text).
  assert (0 <= Py.len text / 4)%Z by (apply Z.div_pos; lia).
  assert (0 <= Z.of_nat (List.length (Py.split text)) / 2)%Z
    by (apply Z.div_pos; lia).
  lia.
Qed.

Lemma estimate_tokens_zero (text : string) :
  estimate_tokens text = 0%Z <->
  (Py.len text < 4)%Z /\ (Z.of_nat (List.length (Py.split text)) < 2)%Z.
Proof.
  unfold estimate_tokens. pose proof (len_nonneg text) as Hl.
  set (n := Py.len text) in *.
  set (w := Z.of_nat (List.length (Py.split text))).
  assert (Hw : (0 <= w)%Z) by (unfold w; lia).
  assert (Hn4 : (0 <= n / 4)%Z) by (apply Z.div_pos; lia).
  assert (Hw2 : (0 <= w / 2)%Z) by (apply Z.div_pos; lia).
  split.
  - intros H. split.
    + assert (E : (n / 4 = 0)%Z) by lia.
      apply Z.div_small_iff in E; lia.
    + assert (E : (w / 2 = 0)%Z) by lia.
      apply Z.div_small_iff in E; lia.
  - intros [H4 H2].
    rewrite (Z.div_small n 4), (Z.div_small w 2) by lia. reflexivity.
Qed.

(** C1, as the specification words it, fails: the two-character message
    ["hi"] is built with no token count and is left with [tokens = 0],
    since [2 // 4 + 1 // 2 = 0]. *)
Lemma short_content_zero_tokens :
  let msg := Message_new "user" "hi" None None 5.0 0 in
  content msg <> "" /\ tokens msg = 0%Z.
Proof.
  split.
  - discriminate.
  - reflexivity.
Qed.

(** C1 (amended).  A message built with no token count (or with the sentinel
    zero) gets [tokens = estimate_tokens content], which is never negative
    and is nonzero exactly when the content has at least four characters or
    at least two whitespace-separated words. *)
Theorem constructed_tokens (role content : string) (timestamp : option string)
    (metadata : option (list (string * pyvalue))) (priority : Q) :
  let msg := Message_new role content timestamp metadata priority 0 in
  tokens msg = estimate_tokens content /\
  (0 <= tokens msg)%Z /\
  (tokens msg <> 0%Z <->
   (4 <= Py.len content)%Z \/ (2 <= Z.of_nat (List.length (Py.split content)))%Z).
Proof.
  cbn zeta. unfold Message_new, post_init. cbn [tokens Z.eqb with_tokens].
  split; [reflexivity|]. split; [apply estimate_tokens_nonneg|].
  pose proof (estimate_tokens_zero content) as Hz.
  split.
  - intros Hne.
    destruct (Z_lt_le_dec (Py.len content) 4) as [H4|H4]; [|left; lia].
    destruct (Z_lt_le_dec (Z.of_nat (List.length (Py.split content))) 2)
      as [H2|H2]; [|right; lia].
    exfalso. apply Hne, Hz. split; assumption.
  - intros Hor Hzero. apply Hz in Hzero. lia.
Qed.

(** ** Priority scoring *)

Lemma mem_In (s : string) (l : list string) : Py.mem s l = true <-> In s l.
Proof.
  unfold Py.mem. rewrite existsb_exists. split.
  - intros [x [Hin Heq]]. apply String.eqb_eq in Heq. now subst.
  - intros Hin. exists s. split; [assumption|apply String.eqb_refl].
Qed.

Lemma py_min_le (a b : Q) : py_min a b <= a.
Proof.
  unfold py_min. destruct (Qlt_bool b a) eqn:E.
  - apply Qlt_le_weak, Qlt_bool_true, E.
  - apply Qle_refl.
Qed.

Lemma py_max_ge (a b : Q) : a <= py_max a b.
Proof.
  unfold py_max. destruct (Qlt_bool a b) eqn:E.
  - apply Qlt_le_weak, Qlt_bool_true, E.
  - apply Qle_refl.
Qed.

Lemma py_max_le (a b c : Q) : a <= c -> b <= c -> py_max a b <= c.
Proof. unfold py_max. destruct (Qlt_bool a b); auto. Qed.

(** C7.  Whatever the content and the role, [calculate_priority] returns a
    value in the closed interval from 1.0 to 10.0. *)
Theorem calculate_priority_range (msg : Message) :
  1.0 <= calculate_priority msg /\ calculate_priority msg <= 10.0.
Proof.
  unfold calculate_priority. split.
  - apply py_max_ge.
  - apply py_max_le.
    + discriminate.
    + apply py_min_le.
Qed.

(** C3, as the specification words it, fails: the rule compares the
    lowercased content itself, not its trimmed form.  ["ok "] trims to the
    acknowledgment ["ok"], yet the rule does not fire and the score is 4.0
    (5.0 less 1.0 for a short message) where ["ok"] scores 1.5. *)
Lemma untrimmed_acknowledgment :
  let msg := Message_new "user" "ok " None None 5.0 0 in
  In (Py.strip (Py.lower (content msg))) acknowledgments /\
  is_acknowledgment msg = false /\
  priority_after_ack msg = priority_before_ack msg /\
  calculate_priority msg == 4.0 /\
  calculate_priority (Message_new "user" "ok" None None 5.0 0) == 1.5.
Proof.
  repeat split; try reflexivity.
  left. reflexivity.
Qed.

(** C3 (amended).  The 2.5 short-acknowledgment deduction is applied exactly
    when the lowercased content, untrimmed, is one of ok, okay, yes, no,
    sure, got it, understood. *)
Theorem acknowledgment_rule (msg : Message) :
  (In (Py.lower (content msg)) acknowledgments /\
   priority_after_ack msg = priority_before_ack msg - 2.5)
  \/
  (~ In (Py.lower (content msg)) acknowledgments /\
   priority_after_ack msg = priority_before_ack msg).
Proof.
  unfold priority_after_ack, is_acknowledgment. cbn zeta.
  destruct (Py.mem (Py.lower (content msg)) acknowledgments) eqn:E.
  - left. split; [apply mem_In, E|reflexivity].
  - right. split; [|reflexivity].
    intros Hin. apply mem_In in Hin. congruence.
Qed.

(** ** Deduplication *)

(** C10.  [deduplicate_messages] never reads its [threshold] argument: two
    calls that differ only in the threshold return the same list. *)
Theorem threshold_is_ignored (messages : list Message) (t1 t2 : Q) :
  deduplicate_messages messages t1 = deduplicate_messages messages t2.
Proof. reflexivity. Qed.

(** ** The semantic fingerprint *)

Lemma leb_lt_or_eq (x y : string) :
  String.leb x y = true <-> OrderedTypeEx.String_as_OT.lt x y \/ x = y.
Proof.
  unfold String.leb.
  destruct (String.compare x y) eqn:E.
  - apply OrderedTypeEx.String_as_OT.cmp_eq in E. tauto.
  - apply OrderedTypeEx.String_as_OT.cmp_lt in E. tauto.
  - split; [discriminate|].
    intros [H|H].
    + apply OrderedTypeEx.String_as_OT.cmp_lt in H.
      unfold OrderedTypeEx.String_as_OT.cmp in H. congruence.
    + apply OrderedTypeEx.String_as_OT.cmp_eq in H.
      unfold OrderedTypeEx.String_as_OT.cmp in H. congruence.
Qed.

Lemma leb_trans (x y z : string) : string_le x y -> string_le y z -> string_le x z.
Proof.
  unfold string_le. rewrite !leb_lt_or_eq.
  intros [Hxy|Hxy] [Hyz|Hyz]; subst; auto.
  left. eapply OrderedTypeEx.String_as_OT.lt_trans; eassumption.
Qed.

Lemma insert_string_In (s x : string) (l : list string) :
  In x (insert_string s l) <-> x = s \/ In x l.
Proof.
  induction l as [|y l IH]; simpl.
  - intuition.
  - destruct (String.leb s y); simpl; [intuition|].
    rewrite IH. intuition.
Qed.

Lemma sorted_In (x : string) (l : list string) : In x (sorted l) <-> In x l.
Proof.
  induction l as [|y l IH]; simpl; [tauto|].
  rewrite insert_string_In, IH. intuition.
Qed.

Lemma insert_string_perm (s : string) (l : list string) :
  Permutation (s :: l) (insert_string s l).
Proof.
  induction l as [|y l IH]; simpl; [apply Permutation_refl|].
  destruct (String.leb s y); [apply Permutation_refl|].
  eapply perm_trans; [apply perm_swap|]. apply perm_skip, IH.
Qed.

Lemma sorted_perm (l : list string) : Permutation l (sorted l).
Proof.
  induction l as [|y l IH]; simpl; [apply perm_nil|].
  eapply perm_trans; [apply perm_skip, IH|apply insert_string_perm].
Qed.

Lemma insert_string_sorted (s : string) (l : list string) :
  StronglySorted string_le l -> StronglySorted string_le (insert_string s l).
Proof.
  induction 1 as [|y l Hs IH Hall]; simpl.
  - constructor; constructor.
  - destruct (String.leb s y) eqn:E.
    + constructor; [constructor; assumption|].
      constructor; [exact E|].
      eapply Forall_impl; [|exact Hall].
      intros z Hz. eapply leb_trans; eassumption.
    + constructor; [exact IH|].
      apply Forall_forall. intros z Hz.
      apply insert_string_In in Hz. destruct Hz as [->|Hz].
      * destruct (String.leb_total s y) as [H|H]; [congruence|exact H].
      * rewrite Forall_forall in Hall. auto.
Qed.

Lemma sorted_is_sorted (l : list string) : StronglySorted string_le (sorted l).
Proof.
  induction l; simpl; [constructor|]. now apply insert_string_sorted.
Qed.

(** A sorted list without repetition is determined by its elements. *)
Lemma strictly_sorted_unique (l1 l2 : list string) :
  StronglySorted string_le l1 -> StronglySorted string_le l2 ->
  NoDup l1 -> NoDup l2 ->
  (forall x, In x l1 <-> In x l2) -> l1 = l2.
Proof.
  intros S1. revert l2.
  induction S1 as [|a l1 S1 IH A1]; intros l2 S2 N1 N2 Hsame.
  - destruct l2 as [|b l2]; [reflexivity|].
    exfalso. apply (proj2 (Hsame b)). now left.
  - destruct l2 as [|b l2].
    + exfalso. apply (proj1 (Hsame a)). now left.
    + inversion S2 as [|? ? S2' A2]; subst.
      inversion N1 as [|? ? Na N1']; subst.
      inversion N2 as [|? ? Nb N2']; subst.
      rewrite Forall_forall in A1, A2.
      assert (Hab : a = b).
      { assert (Ha : In a (b :: l2)) by (apply Hsame; now left).
        assert (Hb : In b (a :: l1)) by (apply Hsame; now left).
        destruct Ha as [Ha|Ha]; [now symmetry|].
        destruct Hb as [Hb|Hb]; [assumption|].
        apply String.leb_antisym; [apply A1, Hb|apply A2, Ha]. }
      subst b. f_equal. apply IH; try assumption.
      intros x. split; intros Hx.
      * assert (H : In x (a :: l2)) by (apply Hsame; now right).
        destruct H as [->|H]; [contradiction|exact H].
      * assert (H : In x (a :: l1)) by (apply Hsame; now right).
        destruct H as [->|H]; [contradiction|exact H].
Qed.

(** [sorted] of an enumeration of a set does not depend on the
    enumeration: any two duplicate-free lists with the same elements sort
    to the same list. *)
Lemma sorted_set_unique (e1 e2 : list string) :
  NoDup e1 -> NoDup e2 -> (forall x, In x e1 <-> In x e2) ->
  sorted e1 = sorted e2.
Proof.
  intros N1 N2 Hsame.
  apply strictly_sorted_unique; try apply sorted_is_sorted.
  - eapply Permutation_NoDup; [apply sorted_perm|exact N1].
  - eapply Permutation_NoDup; [apply sorted_perm|exact N2].
  - intros x. rewrite !sorted_In. apply Hsame.
Qed.

Lemma py_set_NoDup (l : list string) : NoDup (py_set l).
Proof. apply NoDup_nodup. Qed.

Lemma py_set_In (x : string) (l : list string) : In x (py_set l) <-> In x l.
Proof. apply nodup_In. Qed.

(** C8.  Two texts whose lowercased word tokens form the same set, whatever
    the order, the repetitions and the letter case, have the same
    fingerprint. *)
Theorem semantic_hash_word_set (text1 text2 : string) :
  (forall w, In w (Py.findall_words (Py.lower text1)) <->
             In w (Py.findall_words (Py.lower text2))) ->
  semantic_hash text1 = semantic_hash text2.
Proof.
  intros Hsame. unfold semantic_hash, normalized. cbn zeta.
  do 4 f_equal.
  apply sorted_set_unique; try apply py_set_NoDup.
  intros x. rewrite !py_set_In. apply Hsame.
Qed.

(** C8 at the specification's own example, and with the case changed. *)
Lemma semantic_hash_word_set_witness :
  semantic_hash "a b a" = semantic_hash "b a" /\
  semantic_hash "B, a!" = semantic_hash "a b a".
Proof.
  split; apply semantic_hash_word_set; intros w; simpl; tauto.
Defined.

(** ** Deduplication: groups and representatives *)

Lemma first_appearances_In (x : string) (l : list string) :
  In x (first_appearances l) <-> In x l.
Proof.
  induction l as [|a l IH]; simpl; [tauto|].
  rewrite filter_In, IH, negb_true_iff, String.eqb_neq.
  destruct (string_dec x a) as [->|Hne]; intuition.
Qed.

Lemma first_appearances_NoDup (l : list string) : NoDup (first_appearances l).
Proof.
  induction l as [|a l IH]; simpl; constructor.
  - rewrite filter_In, negb_true_iff, String.eqb_neq. intros [_ H]. now apply H.
  - now apply NoDup_filter.
Qed.

Lemma mem_first_appearances (k : string) (l : list string) :
  Py.mem k (first_appearances l) = Py.mem k l.
Proof.
  apply eq_true_iff_eq. rewrite !mem_In. apply first_appearances_In.
Qed.

Lemma first_appearances_snoc (l : list string) (k : string) :
  first_appearances (l ++ [k]) =
  if Py.mem k l then first_appearances l else first_appearances l ++ [k].
Proof.
  induction l as [|a l IH]; [reflexivity|].
  cbn [app first_appearances]. rewrite IH.
  unfold Py.mem in *. cbn [existsb].
  destruct (String.eqb k a) eqn:Eka; cbn [orb].
  - destruct (existsb (String.eqb k) l); [reflexivity|].
    rewrite filter_app. cbn [filter]. rewrite Eka. cbn [negb].
    now rewrite app_nil_r.
  - destruct (existsb (String.eqb k) l); [reflexivity|].
    rewrite filter_app. cbn [filter]. rewrite Eka. reflexivity.
Qed.

Lemma build_groups_snoc (messages : list Message) (msg : Message) :
  build_groups (messages ++ [msg]) =
  group_append (fingerprint msg) msg (build_groups messages).
Proof. unfold build_groups. now rewrite fold_left_app. Qed.

Lemma group_append_map (G : string -> list Message) (k0 : string)
    (msg : Message) (ks : list string) :
  NoDup ks -> (~ In k0 ks -> G k0 = []) ->
  group_append k0 msg (map (fun k => (k, G k)) ks) =
  map (fun k => (k, G k ++ (if String.eqb k0 k then [msg] else [])))
      (if Py.mem k0 ks then ks else ks ++ [k0]).
Proof.
  induction ks as [|a ks IH]; intros Hnd Hnew.
  - cbn. rewrite String.eqb_refl, Hnew by tauto. reflexivity.
  - inversion Hnd as [|? ? Ha Hnd']; subst.
    unfold Py.mem in *. cbn [map group_append existsb].
    destruct (String.eqb k0 a) eqn:E; cbn [orb].
    + apply String.eqb_eq in E. subst a.
      cbn [map]. rewrite String.eqb_refl. f_equal.
      apply map_ext_in. intros k Hk.
      destruct (String.eqb k0 k) eqn:E'.
      * apply String.eqb_eq in E'. subst k. contradiction.
      * now rewrite app_nil_r.
    + rewrite IH; [|assumption|].
      * destruct (existsb (String.eqb k0) ks);
          cbn [map app]; rewrite E, app_nil_r; reflexivity.
      * intros Hn. apply Hnew. intros [->|Hin]; [|contradiction].
        rewrite String.eqb_refl in E. discriminate.
Qed.

Lemma group_of_snoc (k : string) (messages : list Message) (msg : Message) :
  group_of k (messages ++ [msg]) =
  group_of k messages ++ (if String.eqb (fingerprint msg) k then [msg] else []).
Proof.
  unfold group_of. rewrite filter_app. cbn [filter].
  now destruct (String.eqb (fingerprint msg) k).
Qed.

Lemma group_of_absent (k : string) (messages : list Message) :
  ~ In k (map fingerprint messages) -> group_of k messages = [].
Proof.
  induction messages as [|m l IH]; [reflexivity|].
  cbn [map In group_of filter]. intros Hn.
  destruct (String.eqb (fingerprint m) k) eqn:E.
  - apply String.eqb_eq in E. tauto.
  - apply IH. tauto.
Qed.

Lemma group_of_present (k : string) (messages : list Message) :
  In k (map fingerprint messages) -> group_of k messages <> [].
Proof.
  intros Hin Hnil. apply in_map_iff in Hin. destruct Hin as [m [Hk Hm]].
  assert (H : In m (group_of k messages)).
  { apply filter_In. split; [assumption|]. now apply String.eqb_eq. }
  rewrite Hnil in H. contradiction.
Qed.

(** After the first loop the dictionary holds, for each distinct
    fingerprint in first-appearance order, the messages with that
    fingerprint in input order. *)
Lemma build_groups_spec (messages : list Message) :
  build_groups messages =
  map (fun k => (k, group_of k messages))
      (first_appearances (map fingerprint messages)).
Proof.
  induction messages as [|msg messages IH] using rev_ind; [reflexivity|].
  rewrite build_groups_snoc, IH, map_app. cbn [map].
  rewrite first_appearances_snoc, <- mem_first_appearances.
  rewrite (group_append_map (fun k => group_of k messages)).
  - apply map_ext. intros k. now rewrite group_of_snoc.
  - apply first_appearances_NoDup.
  - intros Hn. apply group_of_absent.
    now rewrite <- first_appearances_In.
Qed.

(** [max_from] returns the first element of greatest priority: everything
    before it is strictly smaller, everything after it is no greater. *)
Lemma max_from_spec (group : list Message) : forall best,
  exists before after,
    best :: group = before ++ max_from best group :: after /\
    (forall m, In m before -> priority m < priority (max_from best group)) /\
    (forall m, In m after -> priority m <= priority (max_from best group)).
Proof.
  induction group as [|m rest IH]; intros best.
  - exists [], []. cbn. repeat split; intros ? [].
  - cbn [max_from]. destruct (Qlt_bool (priority best) (priority m)) eqn:E.
    + apply Qlt_bool_true in E.
      destruct (IH m) as [b [a [Heq [Hb Ha]]]].
      exists (best :: b), a. repeat split.
      * cbn [app]. now rewrite <- Heq.
      * intros x [<-|Hx]; [|now apply Hb].
        destruct b as [|y b'].
        -- cbn in Heq. injection Heq as <- _. exact E.
        -- cbn in Heq. injection Heq as <- _.
           eapply Qlt_trans; [exact E|]. apply Hb. now left.
      * exact Ha.
    + apply Qlt_bool_false in E.
      destruct (IH best) as [b [a [Heq [Hb Ha]]]].
      destruct b as [|y b'].
      * cbn in Heq. injection Heq as Hbest Hrest.
        exists [], (m :: a). repeat split.
        -- cbn. rewrite <- Hbest, Hrest. reflexivity.
        -- intros ? [].
        -- intros x [<-|Hx]; [|now apply Ha]. now rewrite <- Hbest.
      * cbn in Heq. injection Heq as <- Hrest.
        exists (best :: m :: b'), a. repeat split.
        -- cbn [app]. do 2 f_equal. exact Hrest.
        -- assert (Hbest : priority best < priority (max_from best rest))
             by (apply Hb; now left).
           intros x [<-|[<-|Hx]].
           ++ exact Hbest.
           ++ eapply Qle_lt_trans; eassumption.
           ++ apply Hb. now right.
        -- exact Ha.
Qed.

Lemma filter_split {A} (p : A -> bool) (l : list A) : forall l1 x l2,
  filter p l = l1 ++ x :: l2 ->
  exists before after,
    l = before ++ x :: after /\ filter p before = l1 /\ filter p after = l2.
Proof.
  induction l as [|y l IH]; intros l1 x l2 H.
  - destruct l1; discriminate.
  - cbn [filter] in H. destruct (p y) eqn:E.
    + destruct l1 as [|z l1].
      * cbn in H. injection H as -> H.
        exists [], l. repeat split; assumption.
      * cbn in H. injection H as -> H.
        destruct (IH _ _ _ H) as [b [a [-> [Hb Ha]]]].
        exists (z :: b), a. repeat split.
        -- cbn [filter]. now rewrite E, Hb.
        -- exact Ha.
    + destruct (IH _ _ _ H) as [b [a [-> [Hb Ha]]]].
      exists (y :: b), a. repeat split.
      * cbn [filter]. now rewrite E.
      * exact Ha.
Qed.

Lemma best_of_groups_map (G : string -> list Message) (ks : list string) :
  (forall k, In k ks -> G k <> []) ->
  exists unique,
    best_of_groups (map G ks) = Some unique /\
    Forall2 (fun k r => max_priority (G k) = Some r) ks unique.
Proof.
  induction ks as [|k ks IH]; intros Hne.
  - exists []. split; [reflexivity|constructor].
  - destruct IH as [u [Hu Hall]]; [intros; apply Hne; now right|].
    cbn [map best_of_groups].
    destruct (G k) as [|m rest] eqn:Eg; [exfalso; apply (Hne k); [now left|exact Eg]|].
    cbn [max_priority]. rewrite Hu.
    eexists. split; [reflexivity|].
    constructor; [|exact Hall]. now rewrite Eg.
Qed.

(** What [max] picks from the group of fingerprint [k]. *)
Lemma representative_spec (k : string) (messages : list Message) (r : Message) :
  max_priority (group_of k messages) = Some r ->
  fingerprint r = k /\
  exists before after,
    messages = before ++ r :: after /\
    (forall m, In m before -> fingerprint m = fingerprint r ->
               priority m < priority r) /\
    (forall m, In m after -> fingerprint m = fingerprint r ->
               priority m <= priority r).
Proof.
  intros Hmax.
  destruct (group_of k messages) as [|best rest] eqn:Eg; [discriminate|].
  cbn [max_priority] in Hmax. injection Hmax as <-.
  destruct (max_from_spec rest best) as [b [a [Heq [Hb Ha]]]].
  set (r := max_from best rest) in *.
  rewrite Heq in Eg. unfold group_of in Eg.
  destruct (filter_split _ _ _ _ _ Eg) as [B [A [Hm [HB HA]]]].
  assert (Hr : fingerprint r = k).
  { assert (H : In r (filter (fun msg => String.eqb (fingerprint msg) k) messages))
      by (rewrite Eg; apply in_elt).
    apply filter_In in H. destruct H as [_ H].
    apply String.eqb_eq. exact H. }
  split; [exact Hr|].
  exists B, A. split; [exact Hm|]. split.
  - intros m Hin Hfp. apply Hb. rewrite <- HB.
    apply filter_In. split; [exact Hin|].
    apply String.eqb_eq. congruence.
  - intros m Hin Hfp. apply Ha. rewrite <- HA.
    apply filter_In. split; [exact Hin|].
    apply String.eqb_eq. congruence.
Qed.

(** [deduplicate_messages] always returns: one pick of [max] per group, the
    groups in first-appearance order of their fingerprints. *)
Lemma deduplicate_messages_groups (messages : list Message) (threshold : Q) :
  exists unique,
    deduplicate_messages messages threshold = Some unique /\
    Forall2 (fun k r => max_priority (group_of k messages) = Some r)
            (first_appearances (map fingerprint messages)) unique.
Proof.
  unfold deduplicate_messages. rewrite build_groups_spec, map_map. cbn [snd].
  apply (best_of_groups_map (fun k => group_of k messages)).
  intros k Hk. apply group_of_present. now apply first_appearances_In.
Qed.

Lemma representatives_fingerprints (messages : list Message)
    (ks : list string) (unique : list Message) :
  Forall2 (fun k r => max_priority (group_of k messages) = Some r) ks unique ->
  map fingerprint unique = ks.
Proof.
  induction 1 as [|k r ks' u' Hkr _ IH]; [reflexivity|].
  cbn [map]. f_equal; [|exact IH].
  apply representative_spec in Hkr. exact (proj1 Hkr).
Qed.

Lemma representatives_from_groups (messages : list Message)
    (ks : list string) (unique : list Message) (r : Message) :
  Forall2 (fun k r => max_priority (group_of k messages) = Some r) ks unique ->
  In r unique -> exists k, max_priority (group_of k messages) = Some r.
Proof.
  induction 1 as [|k r' ks' u' Hkr _ IH]; [contradiction|].
  intros [->|Hr]; [exists k; exact Hkr|exact (IH Hr)].
Qed.

(** C4.  [deduplicate_messages] always returns; its output has exactly one
    message per distinct fingerprint of the input, in the order in which
    the fingerprints first appear there; each of them is the first message
    of its fingerprint group that reaches the group's greatest priority:
    the group members before it in the input are strictly below it, those
    after it are not above it. *)
Theorem deduplicate_messages_spec (messages : list Message) (threshold : Q) :
  exists unique,
    deduplicate_messages messages threshold = Some unique /\
    map fingerprint unique = first_appearances (map fingerprint messages) /\
    NoDup (map fingerprint unique) /\
    (forall k, In k (map fingerprint unique) <-> In k (map fingerprint messages)) /\
    forall r, In r unique ->
      exists before after,
        messages = before ++ r :: after /\
        (forall m, In m before -> fingerprint m = fingerprint r ->
                   priority m < priority r) /\
        (forall m, In m after -> fingerprint m = fingerprint r ->
                   priority m <= priority r).
Proof.
  destruct (deduplicate_messages_groups messages threshold) as [unique [Hu Hall]].
  exists unique. split; [exact Hu|].
  pose proof (representatives_fingerprints _ _ _ Hall) as Hmap.
  split; [exact Hmap|]. rewrite Hmap.
  split; [apply first_appearances_NoDup|].
  split; [intros k; apply first_appearances_In|].
  intros r Hr.
  destruct (representatives_from_groups _ _ _ _ Hall Hr) as [k Hk].
  apply representative_spec in Hk. exact (proj2 Hk).
Qed.

(** [deduplicate_messages] returns only messages of its input. *)
Lemma deduplicate_messages_subset (messages : list Message) (threshold : Q) :
  exists unique,
    deduplicate_messages messages threshold = Some unique /\
    forall r, In r unique -> In r messages.
Proof.
  destruct (deduplicate_messages_groups messages threshold) as [unique [Hu Hall]].
  exists unique. split; [exact Hu|]. intros r Hr.
  destruct (representatives_from_groups _ _ _ _ Hall Hr) as [k Hk].
  apply representative_spec in Hk.
  destruct Hk as [_ [before [after [-> _]]]]. apply in_elt.
Qed.

(** ** The pipeline *)

Lemma fold_tokens_shift (l : list Message) : forall a,
  fold_left (fun acc msg => (acc + tokens msg)%Z) l a = (a + sum_tokens l)%Z.
Proof.
  unfold sum_tokens. induction l as [|m l IH]; intros a; cbn [fold_left].
  - lia.
  - rewrite IH, (IH (0 + tokens m)%Z). lia.
Qed.

Lemma sum_tokens_cons (m : Message) (l : list Message) :
  sum_tokens (m :: l) = (tokens m + sum_tokens l)%Z.
Proof. unfold sum_tokens at 1. cbn [fold_left]. now rewrite fold_tokens_shift. Qed.

Lemma sum_tokens_app (l1 l2 : list Message) :
  sum_tokens (l1 ++ l2) = (sum_tokens l1 + sum_tokens l2)%Z.
Proof.
  induction l1 as [|m l1 IH]; [reflexivity|].
  cbn [app]. rewrite !sum_tokens_cons, IH. lia.
Qed.

Lemma sum_tokens_nonneg (l : list Message) :
  Forall (fun m => (0 <= tokens m)%Z) l -> (0 <= sum_tokens l)%Z.
Proof.
  induction 1 as [|m l Hm _ IH]; [reflexivity|].
  rewrite sum_tokens_cons. lia.
Qed.

Lemma sum_tokens_firstn (n : nat) (l : list Message) :
  Forall (fun m => (0 <= tokens m)%Z) l ->
  (sum_tokens (firstn n l) <= sum_tokens l)%Z.
Proof.
  intros Hall. rewrite <- (firstn_skipn n l) at 2. rewrite sum_tokens_app.
  assert (0 <= sum_tokens (skipn n l))%Z; [|lia].
  apply sum_tokens_nonneg. rewrite <- (firstn_skipn n l) in Hall.
  now apply Forall_app in Hall.
Qed.

(** The greedy loop selects a prefix of its input: every message of the
    prefix kept the running total within the target when it was added, and
    the message after the prefix, when there is one, did not fit. *)
Lemma greedy_loop_spec (l : list Message) (target : Z) :
  forall optimized_old current,
  exists selected rest,
    greedy_loop l target optimized_old current =
      (optimized_old ++ selected, (current + sum_tokens selected)%Z) /\
    l = selected ++ rest /\
    (forall k, (0 < k <= List.length selected)%nat ->
       (current + sum_tokens (firstn k selected) <= target)%Z) /\
    (forall msg rest', rest = msg :: rest' ->
       (target < current + sum_tokens selected + tokens msg)%Z).
Proof.
  induction l as [|m l IH]; intros acc cur.
  - exists [], []. cbn [greedy_loop]. repeat split.
    + rewrite app_nil_r. f_equal. cbn. lia.
    + cbn. intros k Hk. lia.
    + discriminate.
  - cbn [greedy_loop].
    destruct (cur + tokens m <=? target)%Z eqn:E.
    + apply Z.leb_le in E.
      destruct (IH (acc ++ [m]) (cur + tokens m)%Z)
        as [sel [rest [Hrun [Hl [Hfit Hstop]]]]].
      exists (m :: sel), rest. repeat split.
      * rewrite Hrun, <- app_assoc, sum_tokens_cons. cbn [app]. f_equal. lia.
      * cbn [app]. now rewrite Hl.
      * intros k Hk. destruct k as [|k]; [lia|].
        cbn [firstn]. rewrite sum_tokens_cons.
        destruct k as [|k].
        -- cbn. lia.
        -- specialize (Hfit (S k)). cbn [List.length] in Hk.
           assert (0 < S k <= List.length sel)%nat as Hk' by lia.
           specialize (Hfit Hk'). lia.
      * intros msg rest' Hr. specialize (Hstop msg rest' Hr).
        rewrite sum_tokens_cons. lia.
    + apply Z.leb_gt in E.
      exists [], (m :: l). repeat split.
      * rewrite app_nil_r. f_equal. cbn. lia.
      * cbn. intros k Hk. lia.
      * intros msg rest' Hr. injection Hr as <- _. cbn. lia.
Qed.

(** The walk does not resume: with 2 tokens in the recent tier and a target
    of 17, the 100-token message stops it, and the 5-token message behind
    it, which would fit, is not selected. *)
Example greedy_loop_stops :
  greedy_loop
    [mkMessage "user" "alpha" None None 5.0 10;
     mkMessage "user" "beta" None None 5.0 100;
     mkMessage "user" "gamma" None None 5.0 5] 17 [] 2
  = ([mkMessage "user" "alpha" None None 5.0 10], 12%Z).
Proof. reflexivity. Qed.

Lemma insert_by_priority_In (x m : Message) (l : list Message) :
  In x (insert_by_priority m l) <-> x = m \/ In x l.
Proof.
  induction l as [|y l IH]; cbn [insert_by_priority In].
  - intuition.
  - destruct (Qlt_bool (priority m) (priority y)); cbn [In]; [|intuition].
    rewrite IH. intuition.
Qed.

Lemma sort_by_priority_In (x : Message) (l : list Message) :
  In x (sort_by_priority l) <-> In x l.
Proof.
  induction l as [|y l IH]; cbn [sort_by_priority In]; [tauto|].
  rewrite insert_by_priority_In, IH. intuition.
Qed.

(** [sort_by_priority] is the stable descending sort: a permutation of its
    input, in non-increasing priority, that keeps the input order among the
    messages of each priority. *)
Lemma insert_by_priority_perm (m : Message) (l : list Message) :
  Permutation (m :: l) (insert_by_priority m l).
Proof.
  induction l as [|y l IH]; cbn [insert_by_priority]; [apply Permutation_refl|].
  destruct (Qlt_bool (priority m) (priority y)); [|apply Permutation_refl].
  eapply perm_trans; [apply perm_swap|]. apply perm_skip, IH.
Qed.

Lemma sort_by_priority_perm (l : list Message) :
  Permutation l (sort_by_priority l).
Proof.
  induction l as [|y l IH]; cbn [sort_by_priority]; [apply perm_nil|].
  eapply perm_trans; [apply perm_skip, IH|apply insert_by_priority_perm].
Qed.

Lemma insert_by_priority_sorted (m : Message) (l : list Message) :
  StronglySorted (fun a b => priority b <= priority a) l ->
  StronglySorted (fun a b => priority b <= priority a) (insert_by_priority m l).
Proof.
  induction 1 as [|y l Hs IH Hall]; cbn [insert_by_priority].
  - constructor; constructor.
  - destruct (Qlt_bool (priority m) (priority y)) eqn:E.
    + apply Qlt_bool_true in E. constructor; [exact IH|].
      apply Forall_forall. intros z Hz.
      apply insert_by_priority_In in Hz. destruct Hz as [->|Hz].
      * now apply Qlt_le_weak.
      * rewrite Forall_forall in Hall. auto.
    + apply Qlt_bool_false in E.
      constructor; [constructor; assumption|].
      constructor; [exact E|].
      eapply Forall_impl; [|exact Hall].
      intros z Hz. cbn beta in *. eapply Qle_trans; eassumption.
Qed.

Lemma sort_by_priority_sorted (l : list Message) :
  StronglySorted (fun a b => priority b <= priority a) (sort_by_priority l).
Proof.
  induction l; cbn [sort_by_priority]; [constructor|].
  now apply insert_by_priority_sorted.
Qed.

Lemma insert_by_priority_stable (p : Q) (m : Message) (l : list Message) :
  filter (fun x => Qeq_bool (priority x) p) (insert_by_priority m l) =
  filter (fun x => Qeq_bool (priority x) p) (m :: l).
Proof.
  induction l as [|y l IH]; [reflexivity|].
  cbn [insert_by_priority].
  destruct (Qlt_bool (priority m) (priority y)) eqn:E; [|reflexivity].
  apply Qlt_bool_true in E.
  cbn [filter] in *. rewrite IH.
  destruct (Qeq_bool (priority m) p) eqn:Em;
    destruct (Qeq_bool (priority y) p) eqn:Ey; try reflexivity.
  apply Qeq_bool_iff in Em, Ey. exfalso.
  apply (Qlt_irrefl p). now rewrite <- Em at 1; rewrite <- Ey.
Qed.

Lemma sort_by_priority_stable (p : Q) (l : list Message) :
  filter (fun x => Qeq_bool (priority x) p) (sort_by_priority l) =
  filter (fun x => Qeq_bool (priority x) p) l.
Proof.
  induction l as [|m l IH]; [reflexivity|].
  cbn [sort_by_priority]. rewrite insert_by_priority_stable.
  cbn [filter]. now rewrite IH.
Qed.

(** [rank_old] always returns, and only messages of the old tier. *)
Lemma rank_old_total (old : list Message) (min_priority : Q) :
  exists old_filtered,
    rank_old old min_priority = Some old_filtered /\
    forall m, In m old_filtered -> In m old.
Proof.
  unfold rank_old.
  destruct (deduplicate_messages_subset old 0.8) as [u [Hu Hsub]].
  rewrite Hu. eexists. split; [reflexivity|].
  intros m Hm. apply sort_by_priority_In, filter_In in Hm.
  apply Hsub. exact (proj1 Hm).
Qed.

Lemma recent_tier_nil (n : Z) : recent_tier [] n = [].
Proof.
  unfold recent_tier, Py.last_n. destruct (0 <? n)%Z; [apply skipn_nil|reflexivity].
Qed.

Lemma old_tier_nil (n : Z) : old_tier [] n = [].
Proof.
  unfold old_tier, Py.drop_last_n. destruct (0 <? n)%Z; [apply firstn_nil|reflexivity].
Qed.

Lemma old_tier_In (m : Message) (l : list Message) (n : Z) :
  In m (old_tier l n) -> In m l.
Proof.
  unfold old_tier, Py.drop_last_n. destruct (0 <? n)%Z; [|tauto].
  intros H. rewrite <- (firstn_skipn (Z.to_nat (Z.of_nat (List.length l) - n)) l).
  apply in_or_app. now left.
Qed.

(** The stages of [optimize_context] on any input: the ranked old tier, the
    greedy selection with the properties of [greedy_loop_spec], and the
    result as the fallback's outcome followed by the recent tier. *)
Lemma optimize_context_stages (messages : list Message) (target : Z)
    (preserve_recent : Z) (min_priority : Q) :
  let recent := recent_tier (score_all messages) preserve_recent in
  let old := old_tier (score_all messages) preserve_recent in
  exists old_filtered selected rest,
    rank_old old min_priority = Some old_filtered /\
    (forall m, In m old_filtered -> In m old) /\
    greedy_loop old_filtered target [] (sum_tokens recent) =
      (selected, (sum_tokens recent + sum_tokens selected)%Z) /\
    old_filtered = selected ++ rest /\
    (forall k, (0 < k <= List.length selected)%nat ->
       (sum_tokens recent + sum_tokens (firstn k selected) <= target)%Z) /\
    (forall msg rest', rest = msg :: rest' ->
       (target < sum_tokens recent + sum_tokens selected + tokens msg)%Z) /\
    optimize_context messages target preserve_recent min_priority =
      Some (fallback old old_filtered selected
              (sum_tokens recent + sum_tokens selected) target ++ recent).
Proof.
  intros recent old.
  destruct (rank_old_total old min_priority) as [old_filtered [Hrank Hin]].
  destruct (greedy_loop_spec old_filtered target [] (sum_tokens recent))
    as [selected [rest [Hrun [Hsplit [Hfit Hstop]]]]].
  cbn [app] in Hrun.
  exists old_filtered, selected, rest.
  do 6 (split; [assumption|]).
  destruct messages as [|m ms].
  - subst recent old. cbn [score_all map] in *.
    rewrite recent_tier_nil, old_tier_nil in *.
    destruct old_filtered as [|x xs]; [|exfalso; apply (Hin x); now left].
    destruct selected; [|discriminate].
    reflexivity.
  - unfold optimize_context. cbv zeta.
    fold old. rewrite Hrank. fold recent. rewrite Hrun. reflexivity.
Qed.

(** C5.  In [optimize_context] the running total starts at the token sum of
    the recent tier and the sorted filtered list is walked in order.  The
    greedy selection is a prefix of that list; each message of the prefix
    kept the total within [target_tokens] when it was added; the walk ends
    at the first message that would exceed the budget, so no message after
    it is selected, whatever its size. *)
Theorem greedy_selection_is_strict_prefix (messages : list Message)
    (target_tokens preserve_recent : Z) (min_priority : Q) :
  let recent := recent_tier (score_all messages) preserve_recent in
  let old := old_tier (score_all messages) preserve_recent in
  exists old_filtered selected rest,
    rank_old old min_priority = Some old_filtered /\
    greedy_loop old_filtered target_tokens [] (sum_tokens recent) =
      (selected, (sum_tokens recent + sum_tokens selected)%Z) /\
    old_filtered = selected ++ rest /\
    (forall k, (0 < k <= List.length selected)%nat ->
       (sum_tokens recent + sum_tokens (firstn k selected) <= target_tokens)%Z) /\
    (forall msg rest', rest = msg :: rest' ->
       (target_tokens < sum_tokens recent + sum_tokens selected + tokens msg)%Z) /\
    optimize_context messages target_tokens preserve_recent min_priority =
      Some (fallback old old_filtered selected
              (sum_tokens recent + sum_tokens selected) target_tokens ++ recent).
Proof.
  intros recent old.
  destruct (optimize_context_stages messages target_tokens preserve_recent min_priority)
    as [old_filtered [selected [rest [H1 [_ [H2 [H3 [H4 [H5 H6]]]]]]]]].
  exists old_filtered, selected, rest. repeat split; assumption.
Qed.

(** C2, as the specification words it, fails: the test that guards the
    substitution adds the summary's tokens to the running total, which by
    then holds the recent tier and the greedily selected messages, not to
    the recent-tier sum alone.  Here four old messages rank equal, the first
    (10 tokens) is selected and the second (100) does not fit in the target
    of 17; one selected is fewer than [4 // 2]; the summary has 11 tokens
    and the recent tier 2, so recent plus summary is 13, within the target,
    yet no substitution takes place, because 2 + 10 + 11 exceeds 17. *)
Lemma fallback_counts_selected_tokens :
  let messages :=
    [Message_new "user" "alpha planning notes for monday" None None 5.0 10;
     Message_new "user" "beta budget review for tuesday" None None 5.0 100;
     Message_new "user" "gamma travel update for june" None None 5.0 5;
     Message_new "user" "delta hiring status for august" None None 5.0 5;
     Message_new "user" "epsilon closing remark for now" None None 5.0 2] in
  let recent := recent_tier (score_all messages) 1 in
  let old := old_tier (score_all messages) 1 in
  let selected := firstn 1 old in
  let summary := summarize_messages (firstn 20 old) 500 in
  rank_old old 5.0 = Some old /\
  greedy_loop old 17 [] (sum_tokens recent) = (selected, 12%Z) /\
  old <> [] /\
  (Z.of_nat (List.length selected) < Z.of_nat (List.length old) / 2)%Z /\
  (sum_tokens recent + tokens summary <= 17)%Z /\
  optimize_context messages 17 1 5.0 = Some (selected ++ recent) /\
  optimize_context messages 17 1 5.0
    <> Some ((summary :: firstn 10 selected) ++ recent).
Proof.
  cbv zeta.
  refine (conj _ (conj _ (conj _ (conj _ (conj _ (conj _ _)))))).
  - vm_compute. reflexivity.
  - vm_compute. reflexivity.
  - discriminate.
  - vm_compute. reflexivity.
  - vm_compute. discriminate.
  - vm_compute. reflexivity.
  - vm_compute. discriminate.
Qed.

(** C2 (amended).  When the old tier is non-empty and fewer messages were
    greedily selected than half the size of the filtered set (floor
    division), a summary is built from the first 20 messages of the sorted
    filtered set, and the selection becomes that summary followed by the
    first 10 selected messages exactly when the running total, that is the
    recent-tier token sum plus the tokens of all the greedily selected
    messages, plus the summary's tokens is within [target_tokens];
    otherwise the greedy selection stands. *)
Theorem fallback_substitution (messages : list Message)
    (target_tokens preserve_recent : Z) (min_priority : Q) :
  let recent := recent_tier (score_all messages) preserve_recent in
  let old := old_tier (score_all messages) preserve_recent in
  exists old_filtered selected,
    rank_old old min_priority = Some old_filtered /\
    fst (greedy_loop old_filtered target_tokens [] (sum_tokens recent)) = selected /\
    (old <> [] ->
     (Z.of_nat (List.length selected) < Z.of_nat (List.length old_filtered) / 2)%Z ->
     let summary := summarize_messages (firstn 20 old_filtered) 500 in
     ((sum_tokens recent + sum_tokens selected + tokens summary <= target_tokens)%Z /\
      optimize_context messages target_tokens preserve_recent min_priority =
        Some ((summary :: firstn 10 selected) ++ recent))
     \/
     ((target_tokens < sum_tokens recent + sum_tokens selected + tokens summary)%Z /\
      optimize_context messages target_tokens preserve_recent min_priority =
        Some (selected ++ recent))).
Proof.
  intros recent old.
  destruct (optimize_context_stages messages target_tokens preserve_recent min_priority)
    as [old_filtered [selected [rest [Hrank [_ [Hrun [_ [_ [_ Hres]]]]]]]]].
  fold recent old in Hrank, Hrun, Hres.
  exists old_filtered, selected.
  split; [exact Hrank|]. split; [now rewrite Hrun|].
  intros Hold Hfew summary. rewrite Hres. unfold fallback.
  destruct old as [|o old']; [contradiction|]. cbn [nonempty andb].
  rewrite (proj2 (Z.ltb_lt _ _) Hfew). fold summary.
  destruct (sum_tokens recent + sum_tokens selected + tokens summary <=? target_tokens)%Z
    eqn:E.
  - left. apply Z.leb_le in E. split; [exact E|reflexivity].
  - right. apply Z.leb_gt in E. split; [exact E|reflexivity].
Qed.

(** C2 (amended) where the substitution happens: with the target at 23 the
    running total 12 and the summary's 11 tokens fit, and the result is the
    summary, the one selected message and the recent tier. *)
Lemma fallback_substitution_witness :
  let messages :=
    [Message_new "user" "alpha planning notes for monday" None None 5.0 10;
     Message_new "user" "beta budget review for tuesday" None None 5.0 100;
     Message_new "user" "gamma travel update for june" None None 5.0 5;
     Message_new "user" "delta hiring status for august" None None 5.0 5;
     Message_new "user" "epsilon closing remark for now" None None 5.0 2] in
  let recent := recent_tier (score_all messages) 1 in
  let old := old_tier (score_all messages) 1 in
  let summary := summarize_messages (firstn 20 old) 500 in
  optimize_context messages 23 1 5.0 = Some ((summary :: firstn 1 old) ++ recent).
Proof.
  cbv zeta.
  match goal with
  | |- optimize_context ?m _ _ _ = _ =>
      destruct (fallback_substitution m 23 1 5.0)
        as [old_filtered [selected [Hrank [Hsel Hcond]]]]
  end.
  vm_compute in Hrank. injection Hrank as <-.
  vm_compute in Hsel. subst selected.
  destruct Hcond as [[_ Hres]|[Hgt _]].
  - vm_compute. discriminate.
  - vm_compute. reflexivity.
  - etransitivity; [exact Hres|]. vm_compute. reflexivity.
  - vm_compute in Hgt. discriminate.
Defined.

Lemma score_all_tokens (messages : list Message) :
  Forall (fun m => (0 <= tokens m)%Z) messages ->
  Forall (fun m => (0 <= tokens m)%Z) (score_all messages).
Proof.
  unfold score_all. induction 1; cbn [map]; constructor; assumption.
Qed.

(** C9, as it is worded for every input list, fails on a negative token
    count, which the dataclass accepts.  Twenty-four old messages rank equal
    (score 4.0) and one recent message has 2 tokens.  The first ten old
    messages have 10 tokens each, the eleventh was given -100 and the
    twelfth 1000: the loop selects eleven (running total 2) and stops at the
    twelfth.  Eleven is fewer than [24 // 2], the summary (11 tokens) fits
    the running total, and the selection becomes the summary and the first
    ten messages: with the recent tier the result has 113 tokens, over the
    target of 105. *)
Lemma negative_tokens_break_budget :
  let messages :=
    map (fun ct => Message_new "user" (fst ct) None None 5.0 (snd ct))
      [("ca", 10); ("cb", 10); ("cc", 10); ("cd", 10); ("ce", 10);
       ("cf", 10); ("cg", 10); ("ch", 10); ("ci", 10); ("cj", 10);
       ("ck", -100); ("cl", 1000); ("cm", 1); ("cn", 1); ("co", 1);
       ("cp", 1); ("cq", 1); ("cr", 1); ("cs", 1); ("ct", 1);
       ("cu", 1); ("cv", 1); ("cw", 1); ("cx", 1); ("cy", 2)]%Z in
  let recent := recent_tier (score_all messages) 1 in
  let old := old_tier (score_all messages) 1 in
  let selected := summarize_messages (firstn 20 old) 500 :: firstn 10 old in
  rank_old old 4.0 = Some old /\
  greedy_loop old 105 [] (sum_tokens recent) = (firstn 11 old, 2%Z) /\
  optimize_context messages 105 1 4.0 = Some (selected ++ recent) /\
  selected <> [] /\
  sum_tokens (selected ++ recent) = 113%Z /\
  ~ (sum_tokens (selected ++ recent) <= 105)%Z.
Proof.
  cbv zeta.
  refine (conj _ (conj _ (conj _ (conj _ (conj _ _))))).
  - vm_compute. reflexivity.
  - vm_compute. reflexivity.
  - vm_compute. reflexivity.
  - discriminate.
  - vm_compute. reflexivity.
  - vm_compute. intros H. apply H. reflexivity.
Qed.

(** C9 (amended).  For messages with non-negative token counts, whenever
    the result of [optimize_context] has anything in front of the recent
    tier, be it greedily selected old messages or the summary with up to
    ten of them, the token sum of the whole result is at most
    [target_tokens]. *)
Theorem selection_within_budget (messages : list Message)
    (target_tokens preserve_recent : Z) (min_priority : Q) :
  Forall (fun m => (0 <= tokens m)%Z) messages ->
  let recent := recent_tier (score_all messages) preserve_recent in
  exists selected,
    optimize_context messages target_tokens preserve_recent min_priority =
      Some (selected ++ recent) /\
    (selected <> [] -> (sum_tokens (selected ++ recent) <= target_tokens)%Z).
Proof.
  intros Hpos recent.
  destruct (optimize_context_stages messages target_tokens preserve_recent min_priority)
    as [old_filtered [greedy [rest [_ [Hin [_ [Hsplit [Hfit [_ Hres]]]]]]]]].
  fold recent in Hfit, Hres.
  set (old := old_tier (score_all messages) preserve_recent) in *.
  eexists. split; [exact Hres|].
  assert (Hgreedy : greedy <> [] ->
                    (sum_tokens recent + sum_tokens greedy <= target_tokens)%Z).
  { intros Hne. specialize (Hfit (List.length greedy)).
    rewrite firstn_all in Hfit. apply Hfit.
    destruct greedy; [contradiction|cbn; lia]. }
  assert (Hgpos : Forall (fun m => (0 <= tokens m)%Z) greedy).
  { apply Forall_forall. intros m Hm.
    pose proof (score_all_tokens _ Hpos) as Hs. rewrite Forall_forall in Hs.
    apply Hs. apply (old_tier_In _ _ preserve_recent). apply Hin.
    rewrite Hsplit. apply in_or_app. now left. }
  unfold fallback.
  destruct (nonempty old &&
            (Z.of_nat (List.length greedy) <? Z.of_nat (List.length old_filtered) / 2)%Z).
  - set (summary := summarize_messages (firstn 20 old_filtered) 500).
    destruct (sum_tokens recent + sum_tokens greedy + tokens summary <=? target_tokens)%Z
      eqn:E.
    + intros _. apply Z.leb_le in E.
      cbn [app]. rewrite sum_tokens_cons, sum_tokens_app.
      pose proof (sum_tokens_firstn 10 greedy Hgpos). lia.
    + intros Hne. rewrite sum_tokens_app. specialize (Hgreedy Hne). lia.
  - intros Hne. rewrite sum_tokens_app. specialize (Hgreedy Hne). lia.
Qed.

(** C9 (amended) on a conversation where one old message is selected. *)
Lemma selection_within_budget_witness :
  let messages :=
    [mkMessage "user" "alpha planning notes for monday" None None 5.0 10;
     mkMessage "user" "beta budget review for tuesday" None None 5.0 100;
     mkMessage "user" "epsilon closing remark for now" None None 5.0 2] in
  Forall (fun m => (0 <= tokens m)%Z) messages /\
  exists selected,
    optimize_context messages 17 1 5.0 =
      Some (selected ++ recent_tier (score_all messages) 1) /\
    (selected <> [] ->
     (sum_tokens (selected ++ recent_tier (score_all messages) 1) <= 17)%Z).
Proof.
  cbv zeta.
  assert (H : Forall (fun m => (0 <= tokens m)%Z)
    [mkMessage "user" "alpha planning notes for monday" None None 5.0 10;
     mkMessage "user" "beta budget review for tuesday" None None 5.0 100;
     mkMessage "user" "epsilon closing remark for now" None None 5.0 2]).
  { repeat constructor; simpl; lia. }
  split; [exact H|].
  exact (selection_within_budget _ 17 1 5.0 H).
Defined.

(** [l[-n:]] for [n > 0] is the end of [l], of length [min n (len l)]. *)
Lemma last_n_spec {A} (n : Z) (l : list A) :
  (0 < n)%Z ->
  l = Py.drop_last_n n l ++ Py.last_n n l /\
  Z.of_nat (List.length (Py.last_n n l)) = Z.min n (Z.of_nat (List.length l)).
Proof.
  intros Hn. unfold Py.drop_last_n, Py.last_n. split.
  - symmetry. apply firstn_skipn.
  - rewrite length_skipn. lia.
Qed.

(** C6, as the specification words it, fails: the scoring loop overwrites
    the [priority] field of every message, those of the recent tier
    included.  A single message built with the default priority 5.0 and the
    content ["hello there"] comes back with priority 2.0, so the result does
    not end with the input message as it was passed in. *)
Lemma recent_tier_is_rescored :
  let msg := Message_new "user" "hello there" None None 5.0 0 in
  optimize_context [msg] 100 1 5.0
    = Some [with_priority msg (calculate_priority msg)] /\
  priority msg == 5.0 /\
  calculate_priority msg == 2.0 /\
  forall selected,
    optimize_context [msg] 100 1 5.0 <> Some (selected ++ Py.last_n 1 [msg]).
Proof.
  cbv zeta.
  refine (conj _ (conj _ (conj _ _))).
  - vm_compute. reflexivity.
  - vm_compute. reflexivity.
  - vm_compute. reflexivity.
  - intros selected H. vm_compute in H.
    destruct selected as [|x [|y selected]]; discriminate.
Qed.

(** C6 (amended).  For every [preserve_recent] above zero the result of
    [optimize_context] ends with the last [preserve_recent] input messages
    (all of them when there are fewer), in their original order, none
    filtered, deduplicated or dropped whatever the target; each one is
    unmodified in its role, content, timestamp, metadata and tokens, while
    its priority field holds the value [calculate_priority] gives it. *)
Theorem recent_tier_preserved (messages : list Message)
    (target_tokens preserve_recent : Z) (min_priority : Q) :
  (0 < preserve_recent)%Z ->
  let last := Py.last_n preserve_recent messages in
  (exists front, messages = front ++ last) /\
  Z.of_nat (List.length last)
    = Z.min preserve_recent (Z.of_nat (List.length messages)) /\
  exists selected kept,
    optimize_context messages target_tokens preserve_recent min_priority
      = Some (selected ++ kept) /\
    Forall2 (fun m r =>
               role r = role m /\ content r = content m /\
               timestamp r = timestamp m /\ metadata r = metadata m /\
               tokens r = tokens m /\ priority r = calculate_priority m)
            last kept.
Proof.
  intros Hn last.
  destruct (last_n_spec preserve_recent messages Hn) as [Hsplit Hlen].
  split; [eexists; exact Hsplit|]. split; [exact Hlen|].
  destruct (optimize_context_stages messages target_tokens preserve_recent min_priority)
    as [old_filtered [selected [rest [_ [_ [_ [_ [_ [_ Hres]]]]]]]]].
  eexists. eexists. split; [exact Hres|].
  unfold recent_tier. rewrite (proj2 (Z.ltb_lt _ _) Hn).
  unfold Py.last_n, score_all. rewrite length_map, skipn_map.
  fold (Py.last_n preserve_recent messages). fold last.
  clearbody last. clear.
  induction last as [|m l IH]; cbn [map]; constructor; [|exact IH].
  cbn. repeat split; reflexivity.
Qed.

(** C6 (amended) on a two-message conversation that keeps its last
    message. *)
Lemma recent_tier_preserved_witness :
  let messages :=
    [mkMessage "user" "alpha planning notes for monday" None None 5.0 10;
     mkMessage "user" "hello there" None None 5.0 3] in
  (0 < 1)%Z /\
  exists selected kept,
    optimize_context messages 100 1 5.0 = Some (selected ++ kept) /\
    Forall2 (fun m r =>
               role r = role m /\ content r = content m /\
               timestamp r = timestamp m /\ metadata r = metadata m /\
               tokens r = tokens m /\ priority r = calculate_priority m)
            (Py.last_n 1 messages) kept.
Proof.
  cbv zeta. split; [lia|].
  apply (recent_tier_preserved _ 100 1 5.0). lia.
Defined.

(** * Further properties of the module *)

(** ** [estimate_tokens] *)

Lemma string_length_append (s t : string) :
  String.length (s ++ t)%string = (String.length s + String.length t)%nat.
Proof. induction s as [|c s IH]; cbn; [reflexivity|now rewrite IH]. Qed.

Lemma append_char_nonempty (cur : string) (c : ascii) :
  (cur ++ String c EmptyString)%string <> EmptyString.
Proof. destruct cur; discriminate. Qed.

Lemma flush_length (cur : string) :
  List.length (Py.flush cur) = match cur with EmptyString => 0%nat | _ => 1%nat end.
Proof. now destruct cur. Qed.

(** A run needs a character and two runs need a separator between them. *)
Lemma runs_count_bound (keep : ascii -> bool) (s : string) : forall cur,
  (2 * List.length (Py.runs keep s cur)
   <= String.length s + match cur with EmptyString => 1 | _ => 2 end)%nat.
Proof.
  induction s as [|c t IH]; intros cur; cbn [Py.runs String.length].
  - rewrite flush_length. destruct cur; lia.
  - destruct (keep c).
    + specialize (IH (cur ++ String c EmptyString)%string).
      pose proof (append_char_nonempty cur c) as Hne.
      destruct (cur ++ String c EmptyString)%string; [contradiction|].
      destruct cur; lia.
    + specialize (IH EmptyString). cbv iota in IH.
      rewrite length_app, flush_length.
      destruct cur; lia.
Qed.

Lemma runs_started (keep : ascii -> bool) (t : string) : forall cur,
  cur <> EmptyString -> (1 <= List.length (Py.runs keep t cur))%nat.
Proof.
  induction t as [|c t IH]; intros cur Hne; cbn [Py.runs].
  - rewrite flush_length. destruct cur; [contradiction|lia].
  - destruct (keep c).
    + apply IH, append_char_nonempty.
    + rewrite length_app, flush_length. destruct cur; [contradiction|lia].
Qed.

Lemma runs_count_append (keep : ascii -> bool) (s t : string) : forall cur,
  (List.length (Py.runs keep s cur)
   <= List.length (Py.runs keep (s ++ t)%string cur))%nat.
Proof.
  induction s as [|c s IH]; intros cur; cbn [Py.runs String.append].
  - rewrite flush_length. destruct cur; [lia|].
    apply runs_started. discriminate.
  - destruct (keep c).
    + apply IH.
    + rewrite !length_app. specialize (IH EmptyString). lia.
Qed.

(** X1.  The estimate is never negative and never more than half the number
    of characters: a word takes a character and a separator. *)
Theorem estimate_tokens_bounds (text : string) :
  (0 <= estimate_tokens text)%Z /\ (2 * estimate_tokens text <= Py.len text)%Z.
Proof.
  split; [apply estimate_tokens_nonneg|].
  unfold estimate_tokens, Py.len, Py.split.
  pose proof (runs_count_bound (fun c => negb (Py.isspace c)) text EmptyString) as Hw.
  cbv iota in Hw.
  set (n := Z.of_nat (String.length text)).
  set (w := Z.of_nat (List.length
              (Py.runs (fun c => negb (Py.isspace c)) text EmptyString))).
  assert (Hw' : (2 * w <= n + 1)%Z) by (unfold w, n; lia).
  pose proof (Z.mul_div_le n 4 ltac:(lia)).
  pose proof (Z.mul_div_le w 2 ltac:(lia)).
  lia.
Qed.

(** X2.  Appending text never lowers the estimate. *)
Theorem estimate_tokens_append (text more : string) :
  (estimate_tokens text <= estimate_tokens (text ++ more))%Z.
Proof.
  unfold estimate_tokens, Py.len, Py.split.
  rewrite string_length_append.
  pose proof (runs_count_append (fun c => negb (Py.isspace c)) text more EmptyString).
  apply Z.add_le_mono; apply Z.div_le_mono; lia.
Qed.

(** ** [calculate_priority] *)

Lemma calculate_priority_with_priority (msg : Message) (p : Q) :
  calculate_priority (with_priority msg p) = calculate_priority msg.
Proof. reflexivity. Qed.

(** X3.  The score reads only the role and the content, so the scoring step
    of [optimize_context] is idempotent: scoring a conversation that has
    been scored already changes nothing, whatever priorities, token counts,
    timestamps and metadata the messages carry. *)
Theorem score_all_idempotent (messages : list Message) :
  score_all (score_all messages) = score_all messages.
Proof.
  unfold score_all. rewrite map_map. apply map_ext. intros msg.
  rewrite calculate_priority_with_priority. reflexivity.
Qed.

Lemma lower_char_isspace (c : ascii) :
  Py.isspace (Py.lower_char c) = Py.isspace c.
Proof. destruct c as [[] [] [] [] [] [] [] []]; reflexivity. Qed.

Lemma lower_char_idempotent (c : ascii) :
  Py.lower_char (Py.lower_char c) = Py.lower_char c.
Proof. destruct c as [[] [] [] [] [] [] [] []]; reflexivity. Qed.

Lemma lower_char_qmark (c : ascii) :
  Ascii.eqb "?" (Py.lower_char c) = Ascii.eqb "?" c.
Proof. destruct c as [[] [] [] [] [] [] [] []]; reflexivity. Qed.

Lemma lower_char_newline (c : ascii) :
  Ascii.eqb (ascii_of_N 10) (Py.lower_char c) = Ascii.eqb (ascii_of_N 10) c.
Proof. destruct c as [[] [] [] [] [] [] [] []]; reflexivity. Qed.

Lemma lower_idempotent (s : string) : Py.lower (Py.lower s) = Py.lower s.
Proof.
  induction s as [|c s IH]; cbn [Py.lower]; [reflexivity|].
  now rewrite lower_char_idempotent, IH.
Qed.

Lemma lower_lstrip (s : string) : Py.lstrip (Py.lower s) = Py.lower (Py.lstrip s).
Proof.
  induction s as [|c s IH]; cbn [Py.lower Py.lstrip]; [reflexivity|].
  rewrite lower_char_isspace. destruct (Py.isspace c); [exact IH|reflexivity].
Qed.

Lemma lower_rstrip (s : string) : Py.rstrip (Py.lower s) = Py.lower (Py.rstrip s).
Proof.
  induction s as [|c s IH]; cbn [Py.lower Py.rstrip]; [reflexivity|].
  rewrite IH, lower_char_isspace.
  destruct (Py.rstrip s); cbn [Py.lower]; [|reflexivity].
  destruct (Py.isspace c); reflexivity.
Qed.

Lemma lower_search_qmark_end (s : string) :
  Py.search_qmark_end (Py.lower s) = Py.search_qmark_end s.
Proof.
  unfold Py.search_qmark_end. f_equal.
  - induction s as [|c s IH]; [reflexivity|].
    cbn [Py.lower Py.endswith]. rewrite IH. f_equal.
    cbn [String.eqb]. rewrite lower_char_qmark.
    destruct s; reflexivity.
  - induction s as [|c s IH]; [reflexivity|].
    cbn [Py.lower Py.endswith]. rewrite IH. f_equal.
    cbn [String.eqb]. rewrite lower_char_qmark.
    destruct s as [|d s]; [reflexivity|].
    cbn [Py.lower String.eqb]. rewrite lower_char_newline.
    destruct s; reflexivity.
Qed.

Lemma lower_length (s : string) : String.length (Py.lower s) = String.length s.
Proof. induction s as [|c s IH]; cbn; [reflexivity|now rewrite IH]. Qed.

(** X4.  The score is blind to letter case: a message and the same message
    with its content lowercased score the same. *)
Theorem calculate_priority_case_blind (r c : string)
    (ts : option string) (md : option (list (string * pyvalue)))
    (p : Q) (t : Z) :
  calculate_priority (mkMessage r (Py.lower c) ts md p t)
  = calculate_priority (mkMessage r c ts md p t).
Proof.
  unfold calculate_priority, priority_unclamped, priority_after_ack,
    is_acknowledgment, priority_before_ack, Py.strip, Py.len.
  cbv zeta. cbn [role content].
  rewrite lower_idempotent, lower_lstrip, lower_rstrip, lower_search_qmark_end.
  reflexivity.
Qed.

Lemma clamp_shift (x : Q) :
  py_max 1.0 (py_min 10.0 x) <= py_max 1.0 (py_min 10.0 (x + 1.0)) /\
  py_max 1.0 (py_min 10.0 (x + 1.0)) <= py_max 1.0 (py_min 10.0 x) + 1.0.
Proof.
  unfold py_max, py_min.
  destruct (Qlt_bool x 10.0) eqn:E1;
    [apply Qlt_bool_true in E1|apply Qlt_bool_false in E1];
  destruct (Qlt_bool (x + 1.0) 10.0) eqn:E2;
    [apply Qlt_bool_true in E2|apply Qlt_bool_false in E2|
     apply Qlt_bool_true in E2|apply Qlt_bool_false in E2];
  repeat match goal with
         | |- context [Qlt_bool ?a ?b] =>
             let E := fresh "E" in
             destruct (Qlt_bool a b) eqn:E;
               [apply Qlt_bool_true in E|apply Qlt_bool_false in E]
         end;
  split; lra.
Qed.

(** X5.  The system role is worth at most one point and never costs any:
    with the same content, a system message scores at least what a message
    of another role scores, and at most 1.0 more. *)
Theorem system_role_bonus (r c : string)
    (ts : option string) (md : option (list (string * pyvalue)))
    (p : Q) (t : Z) :
  r <> "system" ->
  calculate_priority (mkMessage r c ts md p t)
    <= calculate_priority (mkMessage "system" c ts md p t) /\
  calculate_priority (mkMessage "system" c ts md p t)
    <= calculate_priority (mkMessage r c ts md p t) + 1.0.
Proof.
  intros Hr. apply String.eqb_neq in Hr.
  unfold calculate_priority, priority_unclamped. cbv zeta. cbn [role content].
  rewrite Hr. cbn [String.eqb Ascii.eqb Bool.eqb].
  change (priority_after_ack (mkMessage "system" c ts md p t))
    with (priority_after_ack (mkMessage r c ts md p t)).
  apply clamp_shift.
Qed.

(** X5 on a short greeting. *)
Lemma system_role_bonus_witness :
  "user" <> "system" /\
  calculate_priority (mkMessage "user" "hello there" None None 5.0 3)
    <= calculate_priority (mkMessage "system" "hello there" None None 5.0 3).
Proof.
  split; [discriminate|].
  apply (system_role_bonus "user" "hello there" None None 5.0 3). discriminate.
Defined.

(** ** [semantic_hash] *)

Lemma le_bytes_length (n : nat) : forall x, List.length (MD5.le_bytes n x) = n.
Proof. induction n as [|n IH]; intros x; cbn; [reflexivity|now rewrite IH]. Qed.

Lemma le_bytes_small (n : nat) : forall x b,
  In b (MD5.le_bytes n x) -> (b < 256)%N.
Proof.
  induction n as [|n IH]; intros x b; cbn [MD5.le_bytes In]; [tauto|].
  intros [<-|H]; [|exact (IH _ _ H)].
  change 255%N with (N.ones 8). rewrite N.land_ones.
  apply N.mod_upper_bound. discriminate.
Qed.

Lemma digest_length (msg : list N) : List.length (MD5.digest msg) = 16%nat.
Proof.
  unfold MD5.digest. cbv zeta. rewrite !length_app, !le_bytes_length. reflexivity.
Qed.

Lemma digest_small (msg : list N) (b : N) : In b (MD5.digest msg) -> (b < 256)%N.
Proof.
  unfold MD5.digest. cbv zeta. rewrite !in_app_iff.
  intros [H|[H|[H|H]]]; exact (le_bytes_small _ _ _ H).
Qed.

Lemma hex_length (bytes : list N) :
  String.length (MD5.hex bytes) = (2 * List.length bytes)%nat.
Proof. induction bytes as [|b l IH]; cbn; [reflexivity|rewrite IH; lia]. Qed.

Lemma hex_digit_char (n : N) :
  (n < 16)%N -> In (MD5.hex_digit n) (list_ascii_of_string "0123456789abcdef").
Proof.
  intros H.
  assert (Hn : In n (map N.of_nat (seq 0 16))).
  { apply in_map_iff. exists (N.to_nat n). split; [lia|]. apply in_seq. lia. }
  cbn in Hn.
  repeat (destruct Hn as [<-|Hn]; [cbn; tauto|]). contradiction.
Qed.

Lemma hex_chars (bytes : list N) (c : ascii) :
  (forall b, In b bytes -> (b < 256)%N) ->
  In c (list_ascii_of_string (MD5.hex bytes)) ->
  In c (list_ascii_of_string "0123456789abcdef").
Proof.
  induction bytes as [|b l IH]; intros Hsmall; cbn [MD5.hex list_ascii_of_string In];
    [tauto|].
  assert (Hb : (b < 256)%N) by (apply Hsmall; now left).
  intros [<-|[<-|H]].
  - apply hex_digit_char.
    apply N.Div0.div_lt_upper_bound. exact Hb.
  - apply hex_digit_char. apply N.mod_upper_bound. discriminate.
  - apply IH; [|exact H]. intros b' Hb'. apply Hsmall. now right.
Qed.

Lemma substring_prefix_length (n : nat) : forall s,
  (n <= String.length s)%nat -> String.length (String.substring 0 n s) = n.
Proof.
  induction n as [|n IH]; intros s Hn.
  - destruct s; reflexivity.
  - destruct s as [|c s]; cbn in *; [lia|]. rewrite IH; lia.
Qed.

Lemma substring_prefix_chars (n : nat) (c : ascii) : forall s,
  In c (list_ascii_of_string (String.substring 0 n s)) ->
  In c (list_ascii_of_string s).
Proof.
  induction n as [|n IH]; intros s.
  - destruct s; cbn; tauto.
  - destruct s as [|d s]; cbn [String.substring list_ascii_of_string In]; [tauto|].
    intros [<-|H]; [now left|right; exact (IH _ H)].
Qed.

(** X6.  Every fingerprint is a string of exactly 16 lowercase hexadecimal
    digits. *)
Theorem semantic_hash_shape (text : string) :
  String.length (semantic_hash text) = 16%nat /\
  forall c, In c (list_ascii_of_string (semantic_hash text)) ->
            In c (list_ascii_of_string "0123456789abcdef").
Proof.
  unfold semantic_hash, MD5.hexdigest. split.
  - apply substring_prefix_length. rewrite hex_length, digest_length. lia.
  - intros c H. apply substring_prefix_chars in H.
    revert H. apply hex_chars. apply digest_small.
Qed.

(** ** [deduplicate_messages] *)

Lemma first_appearances_length (l : list string) :
  (List.length (first_appearances l) <= List.length l)%nat.
Proof.
  induction l as [|k l IH]; cbn [first_appearances List.length]; [lia|].
  pose proof (filter_length_le (fun k' => negb (String.eqb k' k))
                (first_appearances l)).
  lia.
Qed.

Lemma first_appearances_distinct (l : list string) :
  NoDup l -> first_appearances l = l.
Proof.
  induction 1 as [|k l Hk _ IH]; [reflexivity|].
  cbn [first_appearances]. rewrite IH. f_equal.
  apply forallb_filter_id. apply forallb_forall. intros x Hx.
  apply negb_true_iff, String.eqb_neq. intros ->. contradiction.
Qed.

Lemma group_of_distinct (l : list Message) (m : Message) :
  NoDup (map fingerprint l) -> In m l -> group_of (fingerprint m) l = [m].
Proof.
  induction l as [|a l IH]; [contradiction|].
  cbn [map]. intros Hnd Hin.
  inversion Hnd as [|? ? Ha Hnd']; subst.
  unfold group_of in *. cbn [filter].
  destruct Hin as [->|Hin].
  - rewrite String.eqb_refl. f_equal.
    exact (group_of_absent (fingerprint m) l Ha).
  - destruct (String.eqb (fingerprint a) (fingerprint m)) eqn:E.
    + apply String.eqb_eq in E. exfalso. apply Ha. rewrite E.
      apply in_map. exact Hin.
    + exact (IH Hnd' Hin).
Qed.

Lemma representatives_of_distinct (l : list Message) :
  NoDup (map fingerprint l) ->
  forall part unique,
    (forall m, In m part -> In m l) ->
    Forall2 (fun k r => max_priority (group_of k l) = Some r)
            (map fingerprint part) unique ->
    unique = part.
Proof.
  intros Hnd part. induction part as [|m part IH]; intros unique Hsub Hall.
  - inversion Hall. reflexivity.
  - cbn [map] in Hall. inversion Hall as [|? r ? u' Hr Hrest]; subst.
    rewrite (group_of_distinct l m Hnd) in Hr by (apply Hsub; now left).
    cbn in Hr. injection Hr as <-. f_equal.
    apply IH; [|exact Hrest]. intros x Hx. apply Hsub. now right.
Qed.

Lemma deduplicate_distinct (l : list Message) (threshold : Q) :
  NoDup (map fingerprint l) -> deduplicate_messages l threshold = Some l.
Proof.
  intros Hnd.
  destruct (deduplicate_messages_groups l threshold) as [unique [Hu Hall]].
  rewrite Hu. f_equal.
  rewrite (first_appearances_distinct _ Hnd) in Hall.
  apply (representatives_of_distinct l Hnd); [tauto|exact Hall].
Qed.

(** X7.  [deduplicate_messages] hands its input back unchanged, order
    included, exactly when no two messages share a fingerprint. *)
Theorem deduplicate_messages_fixed_point (messages : list Message) (threshold : Q) :
  deduplicate_messages messages threshold = Some messages <->
  NoDup (map fingerprint messages).
Proof.
  split; [|apply deduplicate_distinct].
  intros H.
  destruct (deduplicate_messages_groups messages threshold) as [unique [Hu Hall]].
  rewrite H in Hu. injection Hu as <-.
  apply representatives_fingerprints in Hall. rewrite Hall.
  apply first_appearances_NoDup.
Qed.

(** X8.  Deduplicating twice is deduplicating once, and the output is never
    longer than the input. *)
Theorem deduplicate_messages_idempotent (messages : list Message) (t1 t2 : Q) :
  exists unique,
    deduplicate_messages messages t1 = Some unique /\
    deduplicate_messages unique t2 = Some unique /\
    (List.length unique <= List.length messages)%nat.
Proof.
  destruct (deduplicate_messages_groups messages t1) as [unique [Hu Hall]].
  exists unique. split; [exact Hu|].
  pose proof (representatives_fingerprints _ _ _ Hall) as Hmap.
  split.
  - apply deduplicate_distinct. rewrite Hmap. apply first_appearances_NoDup.
  - rewrite <- (length_map fingerprint unique), Hmap.
    rewrite <- (length_map fingerprint messages).
    apply first_appearances_length.
Qed.

(** ** [summarize_messages] *)

Lemma classify_size (b : buckets) (msg : Message) :
  bucket_size (classify b msg) =
  (bucket_size b + if summarizable msg then 1 else 0)%nat.
Proof.
  unfold classify, summarizable, bucket_size. cbv zeta.
  destruct (Py.any_in decision_words (Py.lower (content msg)));
    [cbn [decisions facts questions orb]; rewrite length_app; cbn; lia|].
  destruct (Py.contains "?" (content msg));
    [cbn [decisions facts questions orb]; rewrite length_app; cbn; lia|].
  destruct (Py.any_in fact_words (Py.lower (content msg)));
    cbn [decisions facts questions orb]; [rewrite length_app; cbn|]; lia.
Qed.

Lemma classify_skip (b : buckets) (msg : Message) :
  summarizable msg = false -> classify b msg = b.
Proof.
  unfold classify, summarizable. cbv zeta.
  destruct (Py.any_in decision_words (Py.lower (content msg))); [discriminate|].
  destruct (Py.contains "?" (content msg)); [discriminate|].
  destruct (Py.any_in fact_words (Py.lower (content msg))); [discriminate|].
  reflexivity.
Qed.

Lemma fold_classify_size (messages : list Message) : forall b,
  bucket_size (fold_left classify messages b) =
  (bucket_size b + List.length (filter summarizable messages))%nat.
Proof.
  induction messages as [|m l IH]; intros b; cbn [fold_left filter].
  - cbn [List.length]. lia.
  - rewrite IH, classify_size. destruct (summarizable m); cbn [List.length]; lia.
Qed.

Lemma fold_classify_filter (messages : list Message) : forall b,
  fold_left classify (filter summarizable messages) b =
  fold_left classify messages b.
Proof.
  induction messages as [|m l IH]; intros b; cbn [fold_left filter]; [reflexivity|].
  destruct (summarizable m) eqn:E; cbn [fold_left].
  - apply IH.
  - rewrite (classify_skip b m E). apply IH.
Qed.

(** X9.  Messages that are neither a decision, nor a question, nor a fact
    leave no trace in the summary text: dropping them from the batch gives
    the same text. *)
Theorem summary_ignores_other_messages (messages : list Message) (n : Z) :
  content (summarize_messages (filter summarizable messages) n)
  = content (summarize_messages messages n).
Proof.
  unfold summarize_messages, Message_new, post_init.
  cbn [tokens Z.eqb with_tokens content].
  unfold summary_text. rewrite fold_classify_filter. reflexivity.
Qed.

(** X10.  The placeholder text is produced exactly when no message of the
    batch is a decision, a question or a fact. *)
Theorem summary_placeholder (messages : list Message) :
  summary_text messages = "General conversation summary." <->
  filter summarizable messages = [].
Proof.
  pose proof (fold_classify_size messages (mkBuckets [] [] [])) as Hsize.
  unfold summary_text. cbv zeta.
  destruct (fold_left classify messages (mkBuckets [] [] [])) as [d f q].
  unfold bucket_size in Hsize. cbn [decisions facts questions List.length] in *.
  destruct d as [|d0 d]; destruct f as [|f0 f]; destruct q as [|q0 q];
    cbn [List.length app] in *.
  1: { split; [intros _|reflexivity].
       destruct (filter summarizable messages); [reflexivity|cbn in Hsize; lia]. }
  all: split; [cbn; discriminate|intros H; rewrite H in Hsize; cbn in Hsize; lia].
Qed.

(** X11.  The summary is a system message of priority 8.0 whose content
    starts with the marker, whose metadata counts the batch, and whose
    token count is estimated from its content and is at least 2. *)
Theorem summary_message_shape (messages : list Message) (n : Z) :
  let summary := summarize_messages messages n in
  role summary = "system" /\
  priority summary = 8.0 /\
  String.prefix "[SUMMARY] " (content summary) = true /\
  metadata summary =
    Some [("type", PyStr "summary");
          ("source_count", PyInt (Z.of_nat (List.length messages)))] /\
  tokens summary = estimate_tokens (content summary) /\
  (2 <= tokens summary)%Z.
Proof.
  cbv zeta. unfold summarize_messages, Message_new, post_init.
  cbn [tokens Z.eqb with_tokens content role priority metadata].
  split; [reflexivity|]. split; [reflexivity|].
  split; [cbn; destruct (summary_text messages); reflexivity|].
  split; [reflexivity|]. split; [reflexivity|].
  unfold estimate_tokens, Py.len. rewrite string_length_append.
  change (String.length "[SUMMARY] ") with 10%nat.
  set (k := String.length (summary_text messages)).
  set (w := Z.of_nat (List.length (Py.split ("[SUMMARY] " ++ summary_text messages)))).
  assert (2 <= Z.of_nat (10 + k) / 4)%Z.
  { apply Z.div_le_lower_bound; lia. }
  assert (0 <= w / 2)%Z by (apply Z.div_pos; unfold w; lia).
  lia.
Qed.

(** ** [optimize_context]: what is selected *)

Lemma filter_distinct_fingerprints (keep : Message -> bool)
    (msgs : list Message) :
  NoDup (map fingerprint msgs) -> NoDup (map fingerprint (filter keep msgs)).
Proof.
  induction msgs as [|m msgs IH]; cbn [map filter]; [tauto|].
  intros Hnd. inversion Hnd as [|? ? Hm Hnd']; subst.
  destruct (keep m); cbn [map]; [|exact (IH Hnd')].
  constructor; [|exact (IH Hnd')].
  intros Hin. apply Hm. apply in_map_iff in Hin.
  destruct Hin as [x [Hx Hin]]. apply filter_In in Hin.
  apply in_map_iff. exists x. tauto.
Qed.

Lemma firstn_incl {A} (n : nat) (l : list A) (x : A) :
  In x (firstn n l) -> In x l.
Proof.
  intros H. rewrite <- (firstn_skipn n l). apply in_or_app. now left.
Qed.

Lemma StronglySorted_app_l {A} (R : A -> A -> Prop) (l1 l2 : list A) :
  StronglySorted R (l1 ++ l2) -> StronglySorted R l1.
Proof.
  induction l1 as [|a l1 IH]; cbn [app]; [constructor|].
  intros H. inversion H as [|? ? Hs Hall]; subst.
  constructor; [exact (IH Hs)|].
  apply Forall_app in Hall. tauto.
Qed.

(** [old_filtered] after the sort: messages of the old tier at or above the
    threshold, one per fingerprint, in non-increasing priority. *)
Lemma rank_old_spec (old : list Message) (min_priority : Q) :
  exists old_filtered,
    rank_old old min_priority = Some old_filtered /\
    (forall m, In m old_filtered -> In m old /\ min_priority <= priority m) /\
    NoDup (map fingerprint old_filtered) /\
    StronglySorted (fun a b => priority b <= priority a) old_filtered /\
    (List.length old_filtered <= List.length old)%nat.
Proof.
  unfold rank_old.
  destruct (deduplicate_messages_groups old 0.8) as [u [Hu Hall]].
  destruct (deduplicate_messages_subset old 0.8) as [u' [Hu' Hsub]].
  rewrite Hu in Hu'. injection Hu' as <-.
  pose proof (representatives_fingerprints _ _ _ Hall) as Hmap.
  rewrite Hu. eexists. split; [reflexivity|].
  set (kept := filter (fun msg => Qle_bool min_priority (priority msg)) u).
  pose proof (sort_by_priority_perm kept) as Hperm.
  repeat split.
  - apply sort_by_priority_In, filter_In in H. apply Hsub. tauto.
  - apply sort_by_priority_In, filter_In in H. apply Qle_bool_iff. tauto.
  - eapply Permutation_NoDup; [apply Permutation_map, Hperm|].
    apply filter_distinct_fingerprints. rewrite Hmap. apply first_appearances_NoDup.
  - apply sort_by_priority_sorted.
  - rewrite <- (Permutation_length Hperm).
    pose proof (filter_length_le (fun msg => Qle_bool min_priority (priority msg)) u).
    fold kept in H.
    rewrite <- (length_map fingerprint u), Hmap in H.
    pose proof (first_appearances_length (map fingerprint old)) as H'.
    rewrite length_map in H'. lia.
Qed.

(** X12.  Nothing is made up and the threshold is kept: whatever stands in
    front of the recent tier in the result is either a summary message or a
    message of the rescored old tier whose priority is at least
    [min_priority]. *)
Theorem selection_provenance (messages : list Message)
    (target_tokens preserve_recent : Z) (min_priority : Q) :
  let recent := recent_tier (score_all messages) preserve_recent in
  let old := old_tier (score_all messages) preserve_recent in
  exists selected,
    optimize_context messages target_tokens preserve_recent min_priority
      = Some (selected ++ recent) /\
    forall r, In r selected ->
      (exists batch, r = summarize_messages batch 500) \/
      (In r old /\ min_priority <= priority r).
Proof.
  intros recent old.
  destruct (optimize_context_stages messages target_tokens preserve_recent min_priority)
    as [old_filtered [greedy [rest [Hrank [_ [_ [Hsplit [_ [_ Hres]]]]]]]]].
  fold recent old in Hrank, Hres.
  destruct (rank_old_spec old min_priority) as [of' [Hrank' [Hin _]]].
  rewrite Hrank in Hrank'. injection Hrank' as <-.
  eexists. split; [exact Hres|].
  assert (Hgreedy : forall r, In r greedy -> In r old /\ min_priority <= priority r).
  { intros r Hr. apply Hin. rewrite Hsplit. apply in_or_app. now left. }
  intros r. unfold fallback.
  destruct (nonempty old && _); [|intros Hr; right; exact (Hgreedy r Hr)].
  destruct (_ <=? _)%Z; [|intros Hr; right; exact (Hgreedy r Hr)].
  intros [<-|Hr].
  - left. eexists. reflexivity.
  - right. apply Hgreedy. exact (firstn_incl _ _ _ Hr).
Qed.

(** X13.  The old-tier messages of the result stand in non-increasing
    priority and no two of them share a fingerprint; at most one summary
    message precedes them. *)
Theorem selection_order (messages : list Message)
    (target_tokens preserve_recent : Z) (min_priority : Q) :
  exists head kept,
    optimize_context messages target_tokens preserve_recent min_priority
      = Some (head ++ kept ++ recent_tier (score_all messages) preserve_recent) /\
    (head = [] \/ exists batch, head = [summarize_messages batch 500]) /\
    StronglySorted (fun a b => priority b <= priority a) kept /\
    NoDup (map fingerprint kept).
Proof.
  destruct (optimize_context_stages messages target_tokens preserve_recent min_priority)
    as [old_filtered [greedy [rest [Hrank [_ [_ [Hsplit [_ [_ Hres]]]]]]]]].
  set (recent := recent_tier (score_all messages) preserve_recent) in *.
  set (old := old_tier (score_all messages) preserve_recent) in *.
  destruct (rank_old_spec old min_priority) as [of' [Hrank' [_ [Hnd [Hsorted _]]]]].
  rewrite Hrank in Hrank'. injection Hrank' as <-.
  rewrite Hsplit in Hnd, Hsorted.
  apply StronglySorted_app_l in Hsorted.
  rewrite map_app in Hnd. apply NoDup_app_remove_r in Hnd.
  rewrite Hres. unfold fallback.
  destruct (nonempty old && _);
    [|exists [], greedy; repeat split; [now left|assumption|assumption]].
  destruct (_ <=? _)%Z;
    [|exists [], greedy; repeat split; [now left|assumption|assumption]].
  eexists [_], (firstn 10 greedy). split; [reflexivity|].
  split; [right; eexists; reflexivity|].
  rewrite <- (firstn_skipn 10 greedy) in Hsorted, Hnd.
  rewrite map_app in Hnd. apply NoDup_app_remove_r in Hnd.
  apply StronglySorted_app_l in Hsorted. split; assumption.
Qed.

Lemma tiers_length (l : list Message) (n : Z) :
  (List.length (old_tier l n) + List.length (recent_tier l n))%nat = List.length l.
Proof.
  unfold old_tier, recent_tier, Py.drop_last_n, Py.last_n.
  destruct (0 <? n)%Z; cbn [List.length]; [|lia].
  rewrite <- length_app, firstn_skipn. reflexivity.
Qed.

(** X14.  [optimize_context] never returns more messages than it was given,
    the summary included. *)
Theorem result_no_longer_than_input (messages : list Message)
    (target_tokens preserve_recent : Z) (min_priority : Q) :
  exists result,
    optimize_context messages target_tokens preserve_recent min_priority
      = Some result /\
    (List.length result <= List.length messages)%nat.
Proof.
  destruct (optimize_context_stages messages target_tokens preserve_recent min_priority)
    as [old_filtered [greedy [rest [Hrank [_ [_ [Hsplit [_ [_ Hres]]]]]]]]].
  set (recent := recent_tier (score_all messages) preserve_recent) in *.
  set (old := old_tier (score_all messages) preserve_recent) in *.
  destruct (rank_old_spec old min_priority) as [of' [Hrank' [_ [_ [_ Hlen]]]]].
  rewrite Hrank in Hrank'. injection Hrank' as <-.
  eexists. split; [exact Hres|].
  pose proof (tiers_length (score_all messages) preserve_recent) as Ht.
  assert (Hs : List.length (score_all messages) = List.length messages)
    by (unfold score_all; apply length_map).
  rewrite Hs in Ht. fold old recent in Ht.
  assert (Hg : (List.length greedy <= List.length old_filtered)%nat).
  { rewrite Hsplit, length_app. lia. }
  rewrite length_app. unfold fallback.
  destruct (nonempty old &&
            (Z.of_nat (List.length greedy) <? Z.of_nat (List.length old_filtered) / 2)%Z)
    eqn:E; [|lia].
  destruct (_ <=? _)%Z; [|lia].
  apply andb_true_iff in E. destruct E as [_ E]. apply Z.ltb_lt in E.
  cbn [List.length]. rewrite length_firstn.
  pose proof (Z.mul_div_le (Z.of_nat (List.length old_filtered)) 2 ltac:(lia)).
  lia.
Qed.

Lemma greedy_loop_accumulates (l : list Message) (target : Z) :
  forall acc cur, exists more, fst (greedy_loop l target acc cur) = acc ++ more.
Proof.
  intros acc cur.
  destruct (greedy_loop_spec l target acc cur) as [sel [rest [Hrun _]]].
  exists sel. now rewrite Hrun.
Qed.

(** X15.  Raising the target never loses a greedily selected message: the
    selection under the smaller target is a prefix of the selection under
    the larger one. *)
Theorem greedy_loop_monotone (l : list Message) (target target' : Z) :
  (target <= target')%Z ->
  forall optimized_old current,
  exists more,
    fst (greedy_loop l target' optimized_old current)
    = fst (greedy_loop l target optimized_old current) ++ more.
Proof.
  intros Hle. induction l as [|m l IH]; intros acc cur; cbn [greedy_loop].
  - exists []. cbn [fst]. now rewrite app_nil_r.
  - destruct (cur + tokens m <=? target)%Z eqn:E.
    + apply Z.leb_le in E.
      rewrite (proj2 (Z.leb_le (cur + tokens m) target')) by lia.
      apply IH.
    + cbn [fst]. destruct (cur + tokens m <=? target')%Z.
      * destruct (greedy_loop_accumulates l target' (acc ++ [m]) (cur + tokens m)%Z)
          as [more Hmore].
        exists (m :: more). rewrite Hmore, <- app_assoc. reflexivity.
      * exists []. cbn [fst]. now rewrite app_nil_r.
Qed.

(** X15 on three messages: a target of 17 selects the first, 200 selects
    all. *)
Lemma greedy_loop_monotone_witness :
  let l := [mkMessage "user" "alpha" None None 5.0 10;
            mkMessage "user" "beta" None None 5.0 100;
            mkMessage "user" "gamma" None None 5.0 5] in
  (17 <= 200)%Z /\
  exists more,
    fst (greedy_loop l 200 [] 2) = fst (greedy_loop l 17 [] 2) ++ more.
Proof.
  cbv zeta. split; [lia|].
  apply (greedy_loop_monotone _ 17 200); lia.
Defined.

(** X16.  When [preserve_recent] is positive and at least the length of the
    conversation, the old tier is empty and the result is the whole
    conversation, rescored, whatever the target and the threshold. *)
Theorem all_recent (messages : list Message)
    (target_tokens preserve_recent : Z) (min_priority : Q) :
  (0 < preserve_recent)%Z ->
  (Z.of_nat (List.length messages) <= preserve_recent)%Z ->
  optimize_context messages target_tokens preserve_recent min_priority
    = Some (score_all messages).
Proof.
  intros Hpos Hlen.
  destruct (optimize_context_stages messages target_tokens preserve_recent min_priority)
    as [old_filtered [greedy [rest [_ [Hin [_ [Hsplit [_ [_ Hres]]]]]]]]].
  rewrite Hres. clear Hres.
  assert (Hold : old_tier (score_all messages) preserve_recent = []).
  { unfold old_tier, Py.drop_last_n. rewrite (proj2 (Z.ltb_lt _ _) Hpos).
    unfold score_all. rewrite length_map.
    replace (Z.to_nat (Z.of_nat (List.length messages) - preserve_recent))
      with 0%nat by lia.
    reflexivity. }
  assert (Hrecent : recent_tier (score_all messages) preserve_recent
                    = score_all messages).
  { unfold recent_tier, Py.last_n. rewrite (proj2 (Z.ltb_lt _ _) Hpos).
    unfold score_all. rewrite length_map.
    replace (Z.to_nat (Z.of_nat (List.length messages) - preserve_recent))
      with 0%nat by lia.
    reflexivity. }
  rewrite Hold in *. rewrite Hrecent.
  destruct old_filtered as [|x xs]; [|exfalso; apply (Hin x); now left].
  destruct greedy; [|discriminate].
  reflexivity.
Qed.

(** X16 on a two-message conversation with the default [preserve_recent]. *)
Lemma all_recent_witness :
  let messages :=
    [mkMessage "user" "alpha planning notes for monday" None None 5.0 10;
     mkMessage "user" "hello there" None None 5.0 3] in
  (0 < 10)%Z /\ (Z.of_nat (List.length messages) <= 10)%Z /\
  optimize_context messages 1 10 5.0 = Some (score_all messages).
Proof.
  cbv zeta. split; [lia|]. split; [cbn; lia|].
  apply all_recent; cbn; lia.
Defined.

(** ** [analyze_conversation] *)

Lemma disjoint_filters_length {A} (p q : A -> bool) (l : list A) :
  (forall x, p x = true -> q x = true -> False) ->
  (List.length (filter p l) + List.length (filter q l) <= List.length l)%nat.
Proof.
  intros Hdis. induction l as [|a l IH]; cbn [filter List.length]; [lia|].
  specialize (Hdis a).
  destruct (p a), (q a); cbn [List.length];
    first [lia | exfalso; now apply Hdis].
Qed.

(** X17.  The statistics count every message once at most: the messages
    scoring 7.0 or more and those scoring under 4.0 together are no more
    than [total_messages], which is the length of the conversation. *)
Theorem analyze_priority_counts (messages : list Message) :
  let stats := analyze_conversation messages in
  total_messages stats = Z.of_nat (List.length messages) /\
  (0 <= priority_high_count stats)%Z /\
  (0 <= priority_low_count stats)%Z /\
  (priority_high_count stats + priority_low_count stats <= total_messages stats)%Z.
Proof.
  cbv zeta. unfold analyze_conversation.
  cbn [total_messages priority_high_count priority_low_count].
  split; [reflexivity|]. split; [lia|]. split; [lia|].
  pose proof (disjoint_filters_length (fun p => Qle_bool 7.0 p)
                (fun p => Qlt_bool p 4.0) (map calculate_priority messages)) as H.
  rewrite length_map in H.
  assert (forall x : Q, Qle_bool 7.0 x = true -> Qlt_bool x 4.0 = true -> False).
  { intros x H7 H4. apply Qle_bool_iff in H7. apply Qlt_bool_true in H4. lra. }
  specialize (H H0). lia.
Qed.

(** X18.  The floor average is guarded against the empty conversation, and
    otherwise lies within one of the exact average: [n * avg <= total <
    n * (avg + 1)] for [n] messages. *)
Theorem analyze_average_tokens (messages : list Message) :
  let stats := analyze_conversation messages in
  (messages = [] -> avg_tokens_per_message stats = 0%Z) /\
  (messages <> [] ->
   (total_messages stats * avg_tokens_per_message stats <= total_tokens stats
    < total_messages stats * (avg_tokens_per_message stats + 1))%Z).
Proof.
  cbv zeta. unfold analyze_conversation.
  cbn [total_messages total_tokens avg_tokens_per_message].
  split; [intros ->; reflexivity|].
  intros Hne. destruct messages as [|m l]; [contradiction|].
  cbn [nonempty].
  set (n := Z.of_nat (List.length (m :: l))).
  assert (Hn : (0 < n)%Z) by (unfold n; cbn [List.length]; lia).
  pose proof (Z.mul_div_le (sum_tokens (m :: l)) n Hn).
  pose proof (Z.mul_succ_div_gt (sum_tokens (m :: l)) n Hn).
  lia.
Qed.

Lemma py_set_first_appearances_length (l : list string) :
  List.length (py_set l) = List.length (first_appearances l).
Proof.
  apply Permutation_length, NoDup_Permutation.
  - apply py_set_NoDup.
  - apply first_appearances_NoDup.
  - intros x. rewrite py_set_In, first_appearances_In. tauto.
Qed.

(** X19.  [unique_semantic_groups] is the number of messages that
    [deduplicate_messages] keeps. *)
Theorem analyze_groups_match_deduplication (messages : list Message) (threshold : Q) :
  exists unique,
    deduplicate_messages messages threshold = Some unique /\
    unique_semantic_groups (analyze_conversation messages)
      = Z.of_nat (List.length unique).
Proof.
  destruct (deduplicate_messages_groups messages threshold) as [unique [Hu Hall]].
  exists unique. split; [exact Hu|].
  apply representatives_fingerprints in Hall.
  unfold analyze_conversation. cbn [unique_semantic_groups].
  change (map (fun msg => semantic_hash (content msg)) messages)
    with (map fingerprint messages).
  rewrite py_set_first_appearances_length, <- Hall, length_map. reflexivity.
Qed.

Lemma role_incr_map (C : string -> Z) (r : string) (ks : list string) :
  NoDup ks -> (~ In r ks -> C r = 0%Z) ->
  role_incr r (map (fun k => (k, C k)) ks) =
  map (fun k => (k, (C k + if String.eqb r k then 1 else 0)%Z))
      (if Py.mem r ks then ks else ks ++ [r]).
Proof.
  induction ks as [|a ks IH]; intros Hnd Hnew.
  - cbn. rewrite String.eqb_refl, Hnew by tauto. reflexivity.
  - inversion Hnd as [|? ? Ha Hnd']; subst.
    unfold Py.mem in *. cbn [map role_incr existsb].
    destruct (String.eqb r a) eqn:E; cbn [orb].
    + apply String.eqb_eq in E. subst a.
      cbn [map]. rewrite String.eqb_refl. f_equal.
      apply map_ext_in. intros k Hk.
      destruct (String.eqb r k) eqn:E'.
      * apply String.eqb_eq in E'. subst k. contradiction.
      * f_equal. lia.
    + rewrite IH; [|assumption|].
      * destruct (existsb (String.eqb r) ks);
          cbn [map app]; rewrite E; do 2 f_equal; lia.
      * intros Hn. apply Hnew. intros [->|Hin]; [|contradiction].
        rewrite String.eqb_refl in E. discriminate.
Qed.

Lemma role_count_snoc (k : string) (messages : list Message) (msg : Message) :
  role_count k (messages ++ [msg]) =
  (role_count k messages + if String.eqb (role msg) k then 1 else 0)%Z.
Proof.
  unfold role_count. rewrite filter_app, length_app. cbn [filter].
  destruct (String.eqb (role msg) k); cbn [List.length]; lia.
Qed.

Lemma role_count_absent (k : string) (messages : list Message) :
  ~ In k (map role messages) -> role_count k messages = 0%Z.
Proof.
  unfold role_count. induction messages as [|m l IH]; [reflexivity|].
  cbn [map In filter]. intros Hn.
  destruct (String.eqb (role m) k) eqn:E.
  - apply String.eqb_eq in E. tauto.
  - apply IH. tauto.
Qed.

(** X20.  [role_distribution] lists the roles in the order in which they
    first appear in the conversation, each once, with the number of messages
    that have it. *)
Theorem analyze_role_distribution (messages : list Message) :
  role_distribution (analyze_conversation messages)
  = map (fun r => (r, role_count r messages))
        (first_appearances (map role messages)).
Proof.
  unfold analyze_conversation. cbn [role_distribution].
  induction messages as [|msg messages IH] using rev_ind; [reflexivity|].
  rewrite fold_left_app. cbn [fold_left]. rewrite IH, map_app. cbn [map].
  rewrite first_appearances_snoc, <- mem_first_appearances.
  rewrite (role_incr_map (fun k => role_count k messages)).
  - apply map_ext. intros k. now rewrite role_count_snoc.
  - apply first_appearances_NoDup.
  - intros Hn. apply role_count_absent.
    now rewrite <- first_appearances_In.
Qed.

Lemma role_incr_total (r : string) (d : list (string * Z)) :
  fold_right Z.add 0%Z (map snd (role_incr r d))
  = (fold_right Z.add 0%Z (map snd d) + 1)%Z.
Proof.
  induction d as [|[k n] d IH]; [reflexivity|].
  cbn [role_incr]. destruct (String.eqb r k); cbn [map snd fold_right].
  - lia.
  - rewrite IH. lia.
Qed.

(** X21.  The counts of [role_distribution] add up to [total_messages]. *)
Theorem analyze_role_counts_total (messages : list Message) :
  let stats := analyze_conversation messages in
  fold_right Z.add 0%Z (map snd (role_distribution stats)) = total_messages stats.
Proof.
  cbv zeta. unfold analyze_conversation. cbn [role_distribution total_messages].
  induction messages as [|msg messages IH] using rev_ind; [reflexivity|].
  rewrite fold_left_app. cbn [fold_left].
  rewrite role_incr_total, IH, length_app. cbn [List.length]. lia.
Qed.

(** ** [extract_facts] *)

Lemma extract_from_In (messages : list Message) : forall i0 f,
  In f (extract_from i0 messages) <->
  exists i msg,
    nth_error messages i = Some msg /\
    7.0 <= calculate_priority msg /\
    f = mkFact (content msg) (role msg) (calculate_priority msg) (timestamp msg)
               (i0 + Z.of_nat i)%Z.
Proof.
  induction messages as [|m l IH]; intros i0 f; cbn [extract_from].
  - split; [contradiction|]. intros [i [msg [H _]]]. destruct i; discriminate.
  - cbv zeta. rewrite in_app_iff, IH. split.
    + intros [H|[i [msg [Hn [Hp Hf]]]]].
      * destruct (Qle_bool 7.0 (calculate_priority m)) eqn:E; [|contradiction].
        destruct H as [<-|[]]. exists 0%nat, m.
        split; [reflexivity|]. split; [now apply Qle_bool_iff|].
        f_equal. lia.
      * exists (S i), msg. split; [exact Hn|]. split; [exact Hp|].
        rewrite Hf. f_equal. lia.
    + intros [[|i] [msg [Hn [Hp Hf]]]].
      * left. cbn in Hn. injection Hn as ->.
        rewrite (proj2 (Qle_bool_iff _ _) Hp). left.
        rewrite Hf. f_equal. lia.
      * right. exists i, msg. split; [exact Hn|]. split; [exact Hp|].
        rewrite Hf. f_equal. lia.
Qed.

Lemma extract_from_positions (messages : list Message) : forall i0,
  Forall (fun f => (i0 <= fact_position f)%Z) (extract_from i0 messages) /\
  StronglySorted Z.lt (map fact_position (extract_from i0 messages)).
Proof.
  induction messages as [|m l IH]; intros i0; cbn [extract_from].
  - split; constructor.
  - cbv zeta. destruct (IH (i0 + 1)%Z) as [Hlow Hsorted].
    assert (Hlow' : Forall (fun f => (i0 <= fact_position f)%Z)
                           (extract_from (i0 + 1) l)).
    { eapply Forall_impl; [|exact Hlow]. cbv beta. intros; lia. }
    destruct (Qle_bool 7.0 (calculate_priority m)); cbn [app map].
    + split.
      * constructor; [cbn; lia|exact Hlow'].
      * constructor; [exact Hsorted|].
        apply Forall_map. eapply Forall_impl; [|exact Hlow].
        cbn. intros; lia.
    + split; assumption.
Qed.

Lemma extract_from_length (messages : list Message) : forall i0,
  List.length (extract_from i0 messages) =
  List.length (filter (fun p => Qle_bool 7.0 p) (map calculate_priority messages)).
Proof.
  induction messages as [|m l IH]; intros i0; cbn [extract_from map filter];
    [reflexivity|].
  cbv zeta. rewrite length_app, IH.
  destruct (Qle_bool 7.0 (calculate_priority m)); reflexivity.
Qed.

(** X22.  [extract_facts] reports exactly the messages whose computed score
    is 7.0 or more, each with its content, role and timestamp, that score
    (the stored [priority] is not read) and its index in the conversation. *)
Theorem extract_facts_spec (messages : list Message) (f : Fact) :
  In f (extract_facts messages) <->
  exists i msg,
    nth_error messages i = Some msg /\
    7.0 <= calculate_priority msg /\
    f = mkFact (content msg) (role msg) (calculate_priority msg) (timestamp msg)
               (Z.of_nat i).
Proof.
  unfold extract_facts. rewrite extract_from_In.
  split; intros [i [msg H]]; exists i, msg; exact H.
Qed.

(** X23.  The facts come in conversation order, one per position, and there
    are as many of them as [analyze_conversation] counts high-priority
    messages. *)
Theorem extract_facts_order_and_count (messages : list Message) :
  StronglySorted Z.lt (map fact_position (extract_facts messages)) /\
  Z.of_nat (List.length (extract_facts messages))
    = priority_high_count (analyze_conversation messages).
Proof.
  unfold extract_facts. split.
  - apply extract_from_positions.
  - rewrite extract_from_length. reflexivity.
Qed.

(** ** Acknowledgments and the default threshold *)

Lemma calculate_priority_lower (r c : string)
    (ts : option string) (md : option (list (string * pyvalue)))
    (p : Q) (t : Z) :
  calculate_priority (mkMessage r c ts md p t)
  = calculate_priority (mkMessage r (Py.lower c) None None 5.0 0).
Proof.
  unfold calculate_priority, priority_unclamped, priority_after_ack,
    is_acknowledgment, priority_before_ack, Py.strip, Py.len.
  cbv zeta. cbn [role content].
  rewrite lower_idempotent, lower_lstrip, lower_rstrip, lower_search_qmark_end.
  reflexivity.
Qed.

(** X24.  A message whose content is an acknowledgment word, in any letter
    case, scores at most 2.5, whatever its role: it is below the default
    threshold of 5.0 and is filtered from the old tier. *)
Theorem acknowledgment_scores_low (r c : string)
    (ts : option string) (md : option (list (string * pyvalue)))
    (p : Q) (t : Z) :
  In (Py.lower c) acknowledgments ->
  calculate_priority (mkMessage r c ts md p t) <= 2.5.
Proof.
  intros Hin. rewrite calculate_priority_lower.
  unfold calculate_priority, priority_unclamped. cbv zeta. cbn [role content].
  unfold acknowledgments in Hin. cbn [In] in Hin.
  repeat (destruct Hin as [<-|Hin];
          [destruct (String.eqb r "system"); vm_compute; discriminate|]).
  contradiction.
Qed.

(** X24 on an upper-case acknowledgment from the system role. *)
Lemma acknowledgment_scores_low_witness :
  In (Py.lower "OK") acknowledgments /\
  calculate_priority (mkMessage "system" "OK" None None 5.0 0) <= 2.5.
Proof.
  assert (H : In (Py.lower "OK") acknowledgments) by (left; reflexivity).
  split; [exact H|].
  exact (acknowledgment_scores_low "system" "OK" None None 5.0 0 H).
Defined.

(** ** A recent tier over the budget *)

Lemma greedy_loop_over_budget (l : list Message) (target current : Z) :
  Forall (fun m => (0 <= tokens m)%Z) l ->
  (target < current)%Z ->
  greedy_loop l target [] current = ([], current).
Proof.
  intros Hpos Hover. destruct l as [|m l]; [reflexivity|].
  cbn [greedy_loop]. inversion Hpos; subst.
  rewrite (proj2 (Z.leb_gt _ _)) by lia. reflexivity.
Qed.

(** X25.  When the recent tier alone is over the target and no token count
    is negative, the result is the recent tier and nothing else: no old
    message is selected and no summary is put in. *)
Theorem recent_tier_over_budget (messages : list Message)
    (target_tokens preserve_recent : Z) (min_priority : Q) :
  Forall (fun m => (0 <= tokens m)%Z) messages ->
  (target_tokens < sum_tokens (recent_tier (score_all messages) preserve_recent))%Z ->
  optimize_context messages target_tokens preserve_recent min_priority
    = Some (recent_tier (score_all messages) preserve_recent).
Proof.
  intros Hpos Hover.
  destruct (optimize_context_stages messages target_tokens preserve_recent min_priority)
    as [old_filtered [greedy [rest [_ [Hin [Hrun [_ [_ [_ Hres]]]]]]]]].
  set (recent := recent_tier (score_all messages) preserve_recent) in *.
  set (old := old_tier (score_all messages) preserve_recent) in *.
  assert (Hof : Forall (fun m => (0 <= tokens m)%Z) old_filtered).
  { apply Forall_forall. intros m Hm.
    pose proof (score_all_tokens _ Hpos) as Hs. rewrite Forall_forall in Hs.
    apply Hs. apply (old_tier_In _ _ preserve_recent). apply Hin, Hm. }
  rewrite (greedy_loop_over_budget _ _ _ Hof Hover) in Hrun.
  injection Hrun as <- _.
  rewrite Hres. unfold fallback.
  destruct (nonempty old && _); [|reflexivity].
  set (summary := summarize_messages (firstn 20 old_filtered) 500).
  assert (0 <= tokens summary)%Z by apply estimate_tokens_nonneg.
  rewrite (proj2 (Z.leb_gt _ _)); [reflexivity|].
  cbn [sum_tokens fold_left]. change (sum_tokens []) with 0%Z. lia.
Qed.

(** X25 with a target of 1 and a recent message of 3 tokens. *)
Lemma recent_tier_over_budget_witness :
  let messages :=
    [mkMessage "user" "alpha planning notes for monday" None None 5.0 10;
     mkMessage "user" "hello there" None None 5.0 3] in
  Forall (fun m => (0 <= tokens m)%Z) messages /\
  (1 < sum_tokens (recent_tier (score_all messages) 1))%Z /\
  optimize_context messages 1 1 5.0 = Some (recent_tier (score_all messages) 1).
Proof.
  cbv zeta.
  assert (H : Forall (fun m => (0 <= tokens m)%Z)
    [mkMessage "user" "alpha planning notes for monday" None None 5.0 10;
     mkMessage "user" "hello there" None None 5.0 3]).
  { repeat constructor; simpl; lia. }
  assert (H' : (1 < sum_tokens (recent_tier (score_all
    [mkMessage "user" "alpha planning notes for monday" None None 5.0 10;
     mkMessage "user" "hello there" None None 5.0 3]) 1))%Z).
  { vm_compute. reflexivity. }
  split; [exact H|]. split; [exact H'|].
  exact (recent_tier_over_budget _ 1 1 5.0 H H').
Defined.
